(** * KPI engine of the Lalaleads reporting tool (kpis_advanced.py)

    A shallow embedding of [_split_tags], [compute_metrics],
    [compute_call_distribution] and [apply_filters], with the part of pandas
    they rely on: labelled rows, column lookup that raises [KeyError],
    boolean masks that are aligned on row labels, and selection by a mask
    that raises when the mask cannot be aligned.

    What the model fixes:
    - a cell is empty, a text, a number or a boolean (held with the text
      [str] gives for it), or an instant;
    - a text is its UTF-8 bytes, and the white space [str.strip] removes is
      the white space of Unicode, in these bytes;
    - instants are integers; a parameter tells those that carry a time
      zone, and the order of the integers is the order of time among the
      others; the bounds of a date filter are instants without time zone,
      as [main] builds them from dates;
    - what [pd.to_datetime] reads in a column that is not a datetime column
      yet is a parameter: a function of the whole column, which may raise;
      a column whose cells are all instants or NaT is a datetime column and
      is returned as it is; a column has a time zone when one of its
      instants has;
    - the text [str] gives for an instant is a parameter;
    - column names are distinct and so are row labels, as in a frame read
      from a file and in every selection of its rows;
    - a rate is the exact quotient of two integers, a rational number.  The
      float Python computes is that quotient rounded, and rounding keeps a
      quotient of [0 <= a <= b] within 0 and 1. *)

From Stdlib Require Import ZArith QArith String Ascii List Lia.
From stdpp Require Import base option list gmap strings sorting.
Import ListNotations.
Local Open Scope string_scope.
Local Open Scope Z_scope.

(** * Part I. The model *)

(** ** Cells, rows, frames *)

(** What one cell of the export holds: nothing ([None] or a float NaN), the
    missing instant of a datetime column, a text, a number or a boolean
    (held with the text [str] gives for it), or an instant (a
    [pd.Timestamp], as a number on the time line). *)
Inductive cell : Type :=
  | NaN
  | NaT
  | Str (s : string)
  | Num (s : string)
  | Ts (t : Z).

#[global] Instance cell_eq_dec : EqDecision cell.
Proof. solve_decision. Defined.

(** A frame is its column names and its rows; a row carries its label (the
    pandas index, kept by every selection) and its cells by column name.  A
    cell that a row does not give reads as NaN, as for a short line of a CSV
    file. *)
Record DataFrame : Type := mkDF {
  columns : list string;
  rows : list (Z * gmap string cell)
}.

#[global] Instance DataFrame_eq_dec : EqDecision DataFrame.
Proof. solve_decision. Defined.

(** A pandas Series: values with their row labels. *)
Definition Series (A : Type) : Type := list (Z * A).

Definition s_index {A} (s : Series A) : list Z := s.*1.
Definition s_values {A} (s : Series A) : list A := s.*2.
Definition df_index (df : DataFrame) : list Z := (rows df).*1.
Definition df_len (df : DataFrame) : nat := length (rows df).

(** [df.empty]: one of the two axes has length zero. *)
Definition df_empty (df : DataFrame) : bool :=
  match rows df, columns df with
  | [], _ | _, [] => true
  | _, _ => false
  end.

(** ** Exceptions *)

Inductive exn : Type :=
  | KeyError (col : string)
  | IndexingError
  | ValueError
  | TypeError.

Inductive result (A : Type) : Type :=
  | Ok (a : A)
  | Raise (e : exn).
Arguments Ok {A} a.
Arguments Raise {A} e.

#[global] Instance result_ret : MRet result := @Ok.
#[global] Instance result_bind : MBind result := λ A B f m,
  match m with
  | Ok a => f a
  | Raise e => Raise e
  end.

#[global] Instance result_fmap : FMap result := λ A B f m,
  match m with
  | Ok a => Ok (f a)
  | Raise e => Raise e
  end.

(** ** The pandas operations the module uses *)

Definition cell_at (r : gmap string cell) (c : string) : cell :=
  default NaN (r !! c).

(** [df[c]]: the column as a Series, [KeyError] when there is no such
    column. *)
Definition getitem (df : DataFrame) (c : string) : result (Series cell) :=
  if decide (c ∈ columns df)
  then Ok (map (λ ir, (ir.1, cell_at ir.2 c)) (rows df))
  else Raise (KeyError c).

(** [df[c] = v] for a scalar [v]: the column is created when it is new. *)
Definition setitem_scalar (df : DataFrame) (c : string) (v : cell) : DataFrame :=
  mkDF (if decide (c ∈ columns df) then columns df else columns df ++ [c])
       (map (λ ir, (ir.1, <[c:=v]> ir.2)) (rows df)).

(** [df[c] = values] for the values of a Series with the labels of the
    frame, on a column that exists: row by row. *)
Definition setitem_values (df : DataFrame) (c : string) (values : list cell) : DataFrame :=
  mkDF (columns df) (zip_with (λ ir v, (ir.1, <[c:=v]> ir.2)) (rows df) values).

Definition s_map {A B} (f : A → B) (s : Series A) : Series B :=
  map (λ ix, (ix.1, f ix.2)) s.

(** [mask.sum()] *)
Definition s_sum (s : Series bool) : Z :=
  Z.of_nat (length (List.filter snd s)).

(** The value at a label, the first one should the label be repeated. *)
Fixpoint s_lookup {A} (i : Z) (s : Series A) : option A :=
  match s with
  | [] => None
  | (j, a) :: s' => if decide (i = j) then Some a else s_lookup i s'
  end.

(** The labels of an outer join.  pandas sorts them; they are used below by
    label and by count only, so the order plays no role. *)
Definition union_index (l r : list Z) : list Z :=
  l ++ List.filter (λ j, negb (bool_decide (j ∈ l))) r.

(** [l | r] and [l & r] on boolean Series.  With the same labels the
    operation is position-wise.  Otherwise pandas aligns both sides on the
    joined labels as objects, a missing value being NaN, and then
    - fills the NaN of the right side with False before the operation;
    - leaves NaN where the left side is NaN (the operation on NaN and a
      boolean fails, and the NaN operand is kept as the result);
    - fills the NaN of the result with False.
    So a label the right side lacks reads as False there, and a label the
    left side lacks gives False whatever the right side holds. *)
Definition logical_op (op : bool → bool → bool) (l r : Series bool) : Series bool :=
  if decide (s_index l = s_index r)
  then zip_with (λ a b, (a.1, op a.2 b.2)) l r
  else map (λ i, (i, match s_lookup i l with
                     | Some a => op a (default false (s_lookup i r))
                     | None => false
                     end))
           (union_index (s_index l) (s_index r)).

Definition s_or : Series bool → Series bool → Series bool := logical_op orb.
Definition s_and : Series bool → Series bool → Series bool := logical_op andb.
Definition s_not (s : Series bool) : Series bool := s_map negb s.

(** [pd.Series([False] * n)]: labels 0 .. n-1. *)
Definition false_series (n : nat) : Series bool :=
  map (λ i, (Z.of_nat i, false)) (seq 0 n).

Definition select (df : DataFrame) (keep : list bool) : DataFrame :=
  mkDF (columns df) ((List.filter snd (zip (rows df) keep)).*1).

(** [df[key]] for a boolean Series: a key with the labels of the frame
    selects by position; a key with other labels is reindexed on the frame's
    labels, and a label it lacks raises [IndexingError] (unalignable boolean
    Series provided as indexer). *)
Definition getitem_bool (df : DataFrame) (key : Series bool) : result DataFrame :=
  if decide (s_index key = df_index df)
  then Ok (select df (s_values key))
  else match mapM (λ i, s_lookup i key) (df_index df) with
       | Some keep => Ok (select df keep)
       | None => Raise IndexingError
       end.

Definition notna (c : cell) : bool :=
  match c with
  | NaN | NaT => false
  | _ => true
  end.

Definition fillna (s : string) (c : cell) : cell :=
  match c with
  | NaN | NaT => Str s
  | _ => c
  end.

(** [cell == s] for a text [s] *)
Definition eq_str (s : string) (c : cell) : bool :=
  match c with
  | Str s' => bool_decide (s' = s)
  | _ => false
  end.

Definition isin (values : list string) (c : cell) : bool :=
  match c with
  | Str s => bool_decide (s ∈ values)
  | _ => false
  end.

(** With the default labels 0 .. n-1, the all-False Series built from the
    length of the frame is a Series of the frame. *)
Definition default_index (df : DataFrame) : Prop :=
  df_index df = map Z.of_nat (seq 0 (df_len df)).

#[global] Instance default_index_dec df : Decision (default_index df).
Proof. unfold default_index. apply _. Defined.

(** ** Column names and vocabularies *)

Definition COL_TS : string := "Last Aircall call timestamp".
Definition COL_TAGS : string := "Last used Aircall tags".
Definition COL_STATUS : string := "lemlist lead status".
Definition COL_PHASE : string := "Phase du cycle de vie".
Definition COL_ACTIVITY : string := "Date de la dernière activité".
Definition COL_CAMPAIGN : string := "Campagne".
Definition COL_TITLE : string := "Intitulé du poste".
Definition COL_SECTOR : string := "Secteur".
Definition COL_SIZE : string := "Taille d'entreprise".
Definition COL_LOCATION : string := "Localisation".

Definition CALL_TAGS_ALL : gset string :=
  {[ "Meeting"; "Pitch"; "Sans Suite"; "Standard"; "No answer"; "Numéro Faux" ]}.
Definition CALL_TAGS_CONNECTED : gset string :=
  {[ "Meeting"; "Pitch"; "Sans Suite"; "Standard" ]}.
Definition CALL_TAGS_PITCHED : gset string := {[ "Meeting"; "Pitch" ]}.
Definition CALL_TAGS_RDV : gset string := {[ "Meeting" ]}.

(** ** Text operations of [_split_tags] *)

Definition is_delim (a : ascii) : bool :=
  bool_decide (a = ";"%char ∨ a = ","%char ∨ a = "|"%char).

(** The white space [str.strip] removes.  A text is its UTF-8 bytes here,
    so a character of white space is one byte (tab to carriage return, the
    four separators 28 to 31, the space), two bytes (U+0085 and U+00A0:
    C2 85 and C2 A0) or three bytes (U+1680: E1 9A 80; U+2000 to U+200A,
    U+2028, U+2029 and U+202F: E2 80 followed by 80 to 8A, A8, A9 or AF;
    U+205F: E2 81 9F; U+3000: E3 80 80). *)
Definition is_space (a : ascii) : bool :=
  let n := nat_of_ascii a in
  bool_decide ((9 ≤ n ≤ 13)%nat ∨ (28 ≤ n ≤ 32)%nat).

Definition is_space2 (a b : ascii) : bool :=
  let m := nat_of_ascii a in
  let n := nat_of_ascii b in
  bool_decide (m = 194 ∧ (n = 133 ∨ n = 160))%nat.

Definition is_space3 (a b c : ascii) : bool :=
  let l := nat_of_ascii a in
  let m := nat_of_ascii b in
  let n := nat_of_ascii c in
  bool_decide ((l = 225 ∧ m = 154 ∧ n = 128)
               ∨ (l = 226 ∧ m = 128 ∧ ((128 ≤ n ≤ 138) ∨ n = 168 ∨ n = 169 ∨ n = 175))
               ∨ (l = 226 ∧ m = 129 ∧ n = 159)
               ∨ (l = 227 ∧ m = 128 ∧ n = 128))%nat.

(** [re.split(r"[;,|]+", s)]: the pieces between maximal runs of
    delimiters, empty pieces at both ends included. *)
Fixpoint re_split_aux (in_run : bool) (cur : list ascii) (s : list ascii)
  : list (list ascii) :=
  match s with
  | [] => [rev cur]
  | a :: s' =>
      if is_delim a
      then if in_run then re_split_aux true cur s'
           else rev cur :: re_split_aux true [] s'
      else re_split_aux false (a :: cur) s'
  end.

Definition re_split (s : string) : list string :=
  map string_of_list_ascii (re_split_aux false [] (list_ascii_of_string s)).

(** The bytes left once the characters of white space at the front are
    removed; [sp2] and [sp3] tell the characters of two and three bytes. *)
Fixpoint strip_front (sp2 : ascii → ascii → bool) (sp3 : ascii → ascii → ascii → bool)
    (s : list ascii) : list ascii :=
  match s with
  | a :: s1 =>
      if is_space a then strip_front sp2 sp3 s1
      else match s1 with
           | b :: s2 =>
               if sp2 a b then strip_front sp2 sp3 s2
               else match s2 with
                    | c :: s3 => if sp3 a b c then strip_front sp2 sp3 s3 else s
                    | [] => s
                    end
           | [] => s
           end
  | [] => []
  end.

Definition lstrip (s : list ascii) : list ascii := strip_front is_space2 is_space3 s.

(** The same from the end, on the bytes in reverse order: the last byte of
    a character comes first. *)
Definition rstrip_rev (s : list ascii) : list ascii :=
  strip_front (λ a b, is_space2 b a) (λ a b c, is_space3 c b a) s.

Definition strip (s : string) : string :=
  string_of_list_ascii (rev (rstrip_rev (rev (lstrip (list_ascii_of_string s))))).

(** ** Results and criteria *)

Record Metrics : Type := mkMetrics {
  calls_total : Z;
  calls_connected : Z;
  calls_pitched : Z;
  rdv_phone : Z;
  connection_rate : Q;
  pitch_rate : Q;
  rdv_phone_rate : Q;
  contacts_email : Z;
  contacts_opened : Z;
  contacts_replied : Z;
  open_rate : Q;
  reply_rate : Q;
  rdv_email : Z;
  rdv_total : Z;
  email_conv_rate : Q;
  phone_conv_rate : Q;
  overall_conv_rate : Q
}.

(** One line of the distribution table. *)
Record DistRow : Type := mkDistRow {
  tag : string;
  count : Z;
  rate : Q
}.

(** The keyword arguments of [apply_filters]. *)
Record Criteria : Type := mkCriteria {
  campaigns : option (list string);
  titles : option (list string);
  sectors : option (list string);
  sizes : option (list string);
  locations : option (list string);
  start_date : option Z;
  end_date : option Z
}.

(** [a / b if b else 0.0]; the quotient of two integers is taken in the
    rationals. *)
Definition rate_or_zero (a b : Z) : Q :=
  if decide (b = 0) then 0%Q else (inject_Z a / inject_Z b)%Q.

(** The order [sorted] uses on the items of [tag_counts]: the key
    [(-count, tag)]. *)
Definition item_le (a b : string * Z) : Prop :=
  b.2 < a.2 ∨ (a.2 = b.2 ∧ String.leb a.1 b.1 = true).

#[global] Instance item_le_dec a b : Decision (item_le a b).
Proof. unfold item_le. apply _. Defined.

(** ** The functions of kpis_advanced.py *)

Section Engine.

(** Three functions of pandas are left open.  [read_dates] is what
    [pd.to_datetime(_, errors="coerce")] reads in the values of a column
    that is not a datetime column yet: it reads the column as a whole (the
    format is guessed from the first value), gives an instant or none for
    each value, and may raise (mixed time zones, a boolean).  [aware] tells
    the instants that carry a time zone; the order of the integers is the
    order of time among the others.  [instant_repr] is the text [str] gives
    for an instant. *)
Variable read_dates : list cell → result (list (option Z)).
Variable aware : Z → bool.
Variable instant_repr : Z → string.

Definition py_str (c : cell) : string :=
  match c with
  | NaN => "nan"
  | NaT => "NaT"
  | Str s => s
  | Num s => s
  | Ts t => instant_repr t
  end.

Definition _split_tags (tag_value : cell) : list string :=
  match tag_value with
  | NaN => []
  | _ =>
      let value_str := py_str tag_value in
      let parts := re_split value_str in
      omap (λ p, if decide (strip p = "") then None else Some (strip p)) parts
  end.

Definition has_any_tag (tags : list string) (target_set : gset string) : bool :=
  existsb (λ tag, bool_decide (tag ∈ target_set)) tags.

Definition ensure_column (data : DataFrame) (col : string) : DataFrame :=
  if decide (col ∈ columns data) then data else setitem_scalar data col NaN.

Definition compute_metrics (df : DataFrame) : result Metrics :=
  let data := df in
  let data := foldl ensure_column data [COL_TS; COL_TAGS; COL_STATUS; COL_PHASE] in
  ts ← getitem data COL_TS;
  let called_mask := s_map notna ts in
  let calls_total := s_sum called_mask in
  tg ← getitem data COL_TAGS;
  let tags_series := s_map _split_tags tg in
  let connected_mask :=
    s_and (s_map (λ tags, has_any_tag tags CALL_TAGS_CONNECTED) tags_series) called_mask in
  let pitched_mask :=
    s_and (s_map (λ tags, has_any_tag tags CALL_TAGS_PITCHED) tags_series) called_mask in
  let rdv_phone_mask :=
    s_and (s_map (λ tags, has_any_tag tags CALL_TAGS_RDV) tags_series) called_mask in
  let calls_connected := s_sum connected_mask in
  let calls_pitched := s_sum pitched_mask in
  let rdv_phone := s_sum rdv_phone_mask in
  let connection_rate := rate_or_zero calls_connected calls_total in
  let pitch_rate := rate_or_zero calls_pitched calls_connected in
  let rdv_phone_rate := rate_or_zero rdv_phone calls_total in
  st ← getitem data COL_STATUS;
  let mailed_mask := s_map (λ c, negb (eq_str "" c)) (s_map (fillna "") st) in
  let contacts_email := s_sum mailed_mask in
  let contacts_opened := s_sum (s_map (eq_str "Email opened") st) in
  let contacts_replied := s_sum (s_map (eq_str "Email replied") st) in
  let open_rate := rate_or_zero contacts_opened contacts_email in
  let reply_rate := rate_or_zero contacts_replied contacts_email in
  ph ← getitem data COL_PHASE;
  let rdv_email_mask :=
    s_and (s_and (s_map (eq_str "RDV - Bon contact") ph)
                 (s_map (eq_str "Email replied") st))
          (s_not rdv_phone_mask) in
  let rdv_email := s_sum rdv_email_mask in
  let rdv_total := rdv_phone + rdv_email in
  let email_conv_rate := rate_or_zero rdv_email contacts_email in
  let phone_conv_rate := rate_or_zero rdv_phone calls_total in
  let overall_conv_rate :=
    (inject_Z rdv_total /
     inject_Z (Z.max (contacts_email + calls_total
                      - s_sum (s_and rdv_email_mask called_mask)) 1))%Q in
  Ok {| calls_total := calls_total;
        calls_connected := calls_connected;
        calls_pitched := calls_pitched;
        rdv_phone := rdv_phone;
        connection_rate := connection_rate;
        pitch_rate := pitch_rate;
        rdv_phone_rate := rdv_phone_rate;
        contacts_email := contacts_email;
        contacts_opened := contacts_opened;
        contacts_replied := contacts_replied;
        open_rate := open_rate;
        reply_rate := reply_rate;
        rdv_email := rdv_email;
        rdv_total := rdv_total;
        email_conv_rate := email_conv_rate;
        phone_conv_rate := phone_conv_rate;
        overall_conv_rate := overall_conv_rate |}.

(** The loop over the rows that fills [tag_counts]: one for each tag of
    [set(tags)]. *)
Definition count_tags (tag_counts : gmap string Z) (tags : list string)
  : gmap string Z :=
  foldl (λ tc tag, <[tag := default 0 (tc !! tag) + 1]> tc) tag_counts
        (elements (list_to_set tags : gset string)).

Definition compute_call_distribution (df : DataFrame) : result (list DistRow) :=
  if df_empty df then Ok [] else
  let data := df in
  ts ← getitem data COL_TS;
  let total_calls := s_sum (s_map notna ts) in
  if decide (total_calls = 0) then Ok [] else
  tg ← getitem data COL_TAGS;
  let tag_counts := foldl count_tags ∅ (s_values (s_map _split_tags tg)) in
  Ok (map (λ item, {| tag := item.1; count := item.2;
                      rate := (inject_Z item.2 / inject_Z total_calls)%Q |})
          (merge_sort item_le (map_to_list tag_counts))).

(** A cell of a datetime column. *)
Definition is_stamp (c : cell) : bool :=
  match c with
  | NaT | Ts _ => true
  | _ => false
  end.

(** [pd.to_datetime(values, errors="coerce")] on the values of a column.  A
    column of instants is returned as it is.  Of any other column pandas
    gives, when it does not raise, an instant or NaT for each value, and NaT
    for a value that is missing. *)
Definition to_datetime (values : list cell) : result (list cell) :=
  if forallb is_stamp values then Ok values
  else
    read ← read_dates values;
    Ok (imap (λ k c, if notna c
                     then match read !! k with
                          | Some (Some t) => Ts t
                          | _ => NaT
                          end
                     else NaT)
             values).

(** The body of the loop over the two date columns. *)
Definition parse_column (data : DataFrame) (col : string) : result DataFrame :=
  if decide (col ∈ columns data)
  then s ← getitem data col;
       values ← to_datetime (s_values s);
       Ok (setitem_values data col values)
  else Ok data.

(** A datetime column with a time zone. *)
Definition tz_aware (values : list cell) : bool :=
  existsb (λ c, match c with Ts t => aware t | _ => false end) values.

(** [s >= bound] and [s <= bound] in a datetime column, for a bound without
    time zone (as [main] builds it from a date): [holds] is the comparison
    of an instant with the bound.  NaT compares False, and a column with a
    time zone raises [TypeError]. *)
Definition compare_instants (holds : Z → bool) (s : Series cell) : result (Series bool) :=
  if tz_aware (s_values s) then Raise TypeError
  else Ok (s_map (λ c, match c with Ts t => holds t | _ => false end) s).

Definition ge_instant (bound : Z) : Series cell → result (Series bool) :=
  compare_instants (λ t, bool_decide (bound ≤ t)).

Definition le_instant (bound : Z) : Series cell → result (Series bool) :=
  compare_instants (λ t, bool_decide (t ≤ bound)).

(** [mask_call] and [mask_email]: [cmp] is the comparison with the bound. *)
Definition date_mask (data : DataFrame) (col : string)
    (cmp : Series cell → result (Series bool)) : result (Series bool) :=
  if decide (col ∈ columns data)
  then s ← getitem data col;
       in_range ← cmp s;
       Ok (s_and (s_map notna s) in_range)
  else Ok (false_series (df_len data)).

(** The body of [if start_date is not None] and of [if end_date is not
    None], which differ by the comparison only. *)
Definition date_filter (data : DataFrame) (cmp : Series cell → result (Series bool))
  : result DataFrame :=
  mask_call ← date_mask data COL_TS cmp;
  mask_email ← date_mask data COL_ACTIVITY cmp;
  let either := s_or mask_call mask_email in
  getitem_bool data (s_map (λ b, b || bool_decide (s_sum either = 0)) either).

Definition filter_if_possible (df_ : DataFrame) (column : string)
    (values : option (list string)) : result DataFrame :=
  match values with
  | Some (v :: vs) =>
      if decide (column ∈ columns df_)
      then s ← getitem df_ column;
           getitem_bool df_ (s_map (isin (v :: vs)) (s_map (fillna "") s))
      else Ok df_
  | _ => Ok df_
  end.

Definition apply_filters (df : DataFrame) (crit : Criteria) : result DataFrame :=
  let data := df in
  data ← foldl (λ acc col, acc ≫= λ data, parse_column data col) (Ok data)
               [COL_TS; COL_ACTIVITY];
  data ← match start_date crit with
         | Some start => date_filter data (ge_instant start)
         | None => Ok data
         end;
  data ← match end_date crit with
         | Some stop => date_filter data (le_instant stop)
         | None => Ok data
         end;
  data ← filter_if_possible data COL_CAMPAIGN (campaigns crit);
  data ← filter_if_possible data COL_TITLE (titles crit);
  data ← filter_if_possible data COL_SECTOR (sectors crit);
  data ← filter_if_possible data COL_SIZE (sizes crit);
  data ← filter_if_possible data COL_LOCATION (locations crit);
  Ok data.

End Engine.

(** * Part II. The vocabulary of the statements *)

(** ** Series that are computed row by row *)

(** Every mask of the module comes from the rows of one frame: [rseries rs f]
    is the Series that holds [f r] at the label of each row [r]. *)
Definition rseries {A} (rs : list (Z * gmap string cell)) (f : gmap string cell → A)
  : Series A :=
  map (λ ir, (ir.1, f ir.2)) rs.

(** The number of rows on which [p] holds. *)
Definition count_rows (p : gmap string cell → bool) (rs : list (Z * gmap string cell)) : Z :=
  Z.of_nat (length (List.filter (λ ir, p ir.2) rs)).

Definition filter_rows (p : gmap string cell → bool) (rs : list (Z * gmap string cell))
  : list (Z * gmap string cell) :=
  List.filter (λ ir, p ir.2) rs.

(** ** The rows as [compute_metrics] classifies them *)

(** The cell of a row in a column, NaN when the frame has no such column:
    what the row reads as once the column has been created with NaN. *)
Definition field (cols : list string) (r : gmap string cell) (c : string) : cell :=
  if decide (c ∈ cols) then cell_at r c else NaN.

Section RowView.

Variable instant_repr : Z → string.
Variable cols : list string.

Definition called (r : gmap string cell) : bool := notna (field cols r COL_TS).

Definition tags_of (r : gmap string cell) : list string :=
  _split_tags instant_repr (field cols r COL_TAGS).

Definition connected (r : gmap string cell) : bool :=
  has_any_tag (tags_of r) CALL_TAGS_CONNECTED && called r.

Definition pitched (r : gmap string cell) : bool :=
  has_any_tag (tags_of r) CALL_TAGS_PITCHED && called r.

Definition rdv_by_phone (r : gmap string cell) : bool :=
  has_any_tag (tags_of r) CALL_TAGS_RDV && called r.

Definition mailed (r : gmap string cell) : bool :=
  negb (eq_str "" (fillna "" (field cols r COL_STATUS))).

Definition opened (r : gmap string cell) : bool :=
  eq_str "Email opened" (field cols r COL_STATUS).

Definition replied (r : gmap string cell) : bool :=
  eq_str "Email replied" (field cols r COL_STATUS).

Definition rdv_by_email (r : gmap string cell) : bool :=
  eq_str "RDV - Bon contact" (field cols r COL_PHASE) && replied r
  && negb (rdv_by_phone r).

End RowView.

Definition counts (m : Metrics) : list Z :=
  [calls_total m; calls_connected m; calls_pitched m; rdv_phone m;
   contacts_email m; contacts_opened m; contacts_replied m; rdv_email m;
   rdv_total m].

Definition rates (m : Metrics) : list Q :=
  [connection_rate m; pitch_rate m; rdv_phone_rate m; open_rate m;
   reply_rate m; email_conv_rate m; phone_conv_rate m; overall_conv_rate m].

Definition zero_metrics : Metrics :=
  {| calls_total := 0; calls_connected := 0; calls_pitched := 0; rdv_phone := 0;
     connection_rate := 0; pitch_rate := 0; rdv_phone_rate := 0;
     contacts_email := 0; contacts_opened := 0; contacts_replied := 0;
     open_rate := 0; reply_rate := 0; rdv_email := 0; rdv_total := 0;
     email_conv_rate := 0; phone_conv_rate := 0; overall_conv_rate := 0 |}.

(** The rows of the telephone meetings: called, and a tag of the row is in
    [CALL_TAGS_RDV]. *)
Definition in_rdv_phone (instant_repr : Z → string) (cols : list string)
    (r : gmap string cell) : Prop :=
  notna (field cols r COL_TS) = true ∧
  Exists (λ tag, tag ∈ CALL_TAGS_RDV) (tags_of instant_repr cols r).

(** The rows counted as meetings by e-mail: the phase and the status are
    the two texts, and the row is no telephone meeting. *)
Definition email_meeting (instant_repr : Z → string) (cols : list string)
    (r : gmap string cell) : Prop :=
  field cols r COL_PHASE = Str "RDV - Bon contact" ∧
  field cols r COL_STATUS = Str "Email replied" ∧
  ¬ in_rdv_phone instant_repr cols r.

#[global] Instance in_rdv_phone_dec repr cols r : Decision (in_rdv_phone repr cols r).
Proof. unfold in_rdv_phone. apply _. Defined.

#[global] Instance email_meeting_dec repr cols r : Decision (email_meeting repr cols r).
Proof. unfold email_meeting. apply _. Defined.

(** ** Criteria with one constraint *)

Definition no_criteria : Criteria := mkCriteria None None None None None None None.
Definition only_start (o : option Z) : Criteria :=
  mkCriteria None None None None None o None.
Definition only_end (o : option Z) : Criteria :=
  mkCriteria None None None None None None o.
Definition only_campaigns (v : option (list string)) : Criteria :=
  mkCriteria v None None None None None None.
Definition only_titles (v : option (list string)) : Criteria :=
  mkCriteria None v None None None None None.
Definition only_sectors (v : option (list string)) : Criteria :=
  mkCriteria None None v None None None None.
Definition only_sizes (v : option (list string)) : Criteria :=
  mkCriteria None None None v None None None.
Definition only_locations (v : option (list string)) : Criteria :=
  mkCriteria None None None None v None None.

(** The five categorical dimensions, with the column and the criterion of
    each. *)
Inductive dimension : Type := Campaign | Title | Sector | Size | Location.

Definition dim_column (d : dimension) : string :=
  match d with
  | Campaign => COL_CAMPAIGN
  | Title => COL_TITLE
  | Sector => COL_SECTOR
  | Size => COL_SIZE
  | Location => COL_LOCATION
  end.

Definition only_dim (d : dimension) (v : option (list string)) : Criteria :=
  match d with
  | Campaign => only_campaigns v
  | Title => only_titles v
  | Sector => only_sectors v
  | Size => only_sizes v
  | Location => only_locations v
  end.

(** ** The steps of [apply_filters] *)

(** The first step of [apply_filters]: the loop over the two date
    columns. *)
Definition parse_dates (read_dates : list cell → result (list (option Z)))
    (df : DataFrame) : result DataFrame :=
  foldl (λ acc col, acc ≫= λ data, parse_column read_dates data col) (Ok df)
        [COL_TS; COL_ACTIVITY].

(** The values of a column, a cell that a row does not give read as NaN. *)
Definition column_values (d : DataFrame) (c : string) : list cell :=
  map (λ ir, cell_at ir.2 c) (rows d).

(** A frame whose date columns are datetime columns: every row has there an
    instant or NaT. *)
Definition parsed (d : DataFrame) : Prop :=
  ∀ i r c, (i, r) ∈ rows d → c ∈ [COL_TS; COL_ACTIVITY] → c ∈ columns d →
           ∃ v, r !! c = Some v ∧ is_stamp v = true.

(** A frame whose date columns hold no instant with a time zone. *)
Definition naive (aware : Z → bool) (d : DataFrame) : Prop :=
  Forall (λ c, c ∈ columns d → tz_aware aware (column_values d c) = false)
         [COL_TS; COL_ACTIVITY].

#[global] Instance naive_dec aware d : Decision (naive aware d).
Proof. unfold naive. apply _. Defined.

(** The instant a row holds in a date column: none when the column is
    missing and when the cell is no instant. *)
Definition instant_in (cols : list string) (r : gmap string cell) (col : string)
  : option Z :=
  if decide (col ∈ cols)
  then match cell_at r col with
       | Ts t => Some t
       | _ => None
       end
  else None.

(** One of the two instants of the row is there and satisfies [holds]. *)
Definition dated (holds : Z → bool) (cols : list string) (r : gmap string cell) : bool :=
  existsb (λ col, match instant_in cols r col with
                  | Some t => holds t
                  | None => false
                  end)
          [COL_TS; COL_ACTIVITY].



(** What the parsing makes of one cell: an instant or NaT, and NaT of a
    value that is missing. *)
Definition read_as (c v : cell) : Prop :=
  is_stamp v = true ∧ (notna v = true → notna c = true).

(** What the parsing makes of one row: the cells of the date columns of the
    frame are read, the others are kept. *)
Definition row_read (cols : list string) (r r0 : gmap string cell) : Prop :=
  ∀ c, if decide ((c = COL_TS ∨ c = COL_ACTIVITY) ∧ c ∈ cols)
       then ∃ v, r0 !! c = Some v ∧ read_as (cell_at r c) v
       else r0 !! c = r !! c.

(** And of a frame: the columns, the rows and their labels are kept. *)
Definition frame_read (df d0 : DataFrame) : Prop :=
  columns d0 = columns df ∧
  Forall2 (λ ir ir0, ir0.1 = ir.1 ∧ row_read (columns df) ir.2 ir0.2) (rows df) (rows d0).

(** A selection of the rows of a frame, with its columns. *)
Definition sub_frame (d' d : DataFrame) : Prop :=
  columns d' = columns d ∧ ∀ x, x ∈ rows d' → x ∈ rows d.

(** The two date steps and the five categorical steps, as [apply_filters]
    runs them after the parsing. *)
Definition date_step (cmp : Z → Series cell → result (Series bool)) (o : option Z)
    (d : DataFrame) : result DataFrame :=
  match o with
  | Some bound => date_filter d (cmp bound)
  | None => Ok d
  end.

(** When both date columns exist, or when the rows bear the default labels,
    the two masks of a date step have the labels of the frame. *)
Definition labels_aligned (d : DataFrame) : Prop :=
  (COL_TS ∈ columns d ∧ COL_ACTIVITY ∈ columns d) ∨ default_index d.

#[global] Instance labels_aligned_dec d : Decision (labels_aligned d).
Proof. unfold labels_aligned. apply _. Defined.

(** The rows on which [p] holds, or every row when it holds on none. *)
Definition fallback_rows (p : gmap string cell → bool) (rs : list (Z * gmap string cell))
  : list (Z * gmap string cell) :=
  if decide (count_rows p rs = 0) then rs else filter_rows p rs.

Definition cat_row (col : string) (vals : list string) (r : gmap string cell) : bool :=
  isin vals (fillna "" (cell_at r col)).

(** The individual filters in the order the specification gives: campaign,
    job title, sector, company size, location, start date, end date. *)
Definition filters_in_spec_order (read_dates : list cell → result (list (option Z)))
    (aware : Z → bool) (df : DataFrame) (crit : Criteria) : result DataFrame :=
  apply_filters read_dates aware df (only_campaigns (campaigns crit)) ≫= λ d,
  apply_filters read_dates aware d (only_titles (titles crit)) ≫= λ d,
  apply_filters read_dates aware d (only_sectors (sectors crit)) ≫= λ d,
  apply_filters read_dates aware d (only_sizes (sizes crit)) ≫= λ d,
  apply_filters read_dates aware d (only_locations (locations crit)) ≫= λ d,
  apply_filters read_dates aware d (only_start (start_date crit)) ≫= λ d,
  apply_filters read_dates aware d (only_end (end_date crit)).

(** ** An instance of the reading of dates, and sample frames *)

Module Sample.

Definition digit (a : ascii) : option Z :=
  let n := Z.of_nat (nat_of_ascii a) in
  if decide (48 ≤ n ≤ 57) then Some (n - 48) else None.

(** ISO calendar dates, ["YYYY-MM-DD"], numbered year * 10000 + month * 100
    + day, which keeps their order; no instant for any other text. *)
Definition iso_date (s : string) : option Z :=
  match list_ascii_of_string s with
  | [y1; y2; y3; y4; s1; m1; m2; s2; d1; d2] =>
      y1 ← digit y1; y2 ← digit y2; y3 ← digit y3; y4 ← digit y4;
      m1 ← digit m1; m2 ← digit m2; d1 ← digit d1; d2 ← digit d2;
      let month := 10 * m1 + m2 in
      let day := 10 * d1 + d2 in
      if decide (s1 = "-"%char ∧ s2 = "-"%char ∧ 1 ≤ month ≤ 12 ∧ 1 ≤ day ≤ 31)
      then Some ((1000 * y1 + 100 * y2 + 10 * y3 + y4) * 10000 + month * 100 + day)
      else None
  | _ => None
  end.

(** A reading of a column that reads each text by [iso_date] and never
    raises, and instants that are all without time zone. *)
Definition read_iso (values : list cell) : result (list (option Z)) :=
  Ok (map (λ c, match c with Str s => iso_date s | _ => None end) values).

Definition no_zone (t : Z) : bool := false.

Definition two_rows_by_campaign : DataFrame :=
  mkDF [COL_CAMPAIGN; COL_TS; COL_ACTIVITY]
       [(0, {[ COL_CAMPAIGN := Str "A"; COL_TS := Str "2024-01-05"; COL_ACTIVITY := NaN ]});
        (1, {[ COL_CAMPAIGN := Str "B"; COL_TS := Str "2024-03-01"; COL_ACTIVITY := NaN ]})].

Definition one_early_call : DataFrame :=
  mkDF [COL_TS; COL_ACTIVITY]
       [(0, {[ COL_TS := Str "2024-01-05"; COL_ACTIVITY := NaN ]})].

Definition raw_timestamps : DataFrame :=
  mkDF [COL_TS]
       [(0, {[ COL_TS := Str "2024-01-05" ]}); (1, {[ COL_TS := Str "n/a" ]})].

Definition campaigns_only : DataFrame :=
  mkDF [COL_CAMPAIGN]
       [(0, {[ COL_CAMPAIGN := Str "A" ]}); (1, {[ COL_CAMPAIGN := Str "B" ]})].

Definition activity_only : DataFrame :=
  mkDF [COL_ACTIVITY]
       [(0, {[ COL_ACTIVITY := Str "2024-01-05" ]});
        (1, {[ COL_ACTIVITY := Str "2024-03-01" ]});
        (2, {[ COL_ACTIVITY := Str "2024-03-02" ]})].

End Sample.

(** ** Vocabulary of the further properties *)

(** The text after the character of white space it begins with, if it
    begins with one: a step of [strip_front]. *)
Definition space_ahead (sp2 : ascii → ascii → bool) (sp3 : ascii → ascii → ascii → bool)
    (s : list ascii) : option (list ascii) :=
  match s with
  | a :: s1 =>
      if is_space a then Some s1
      else match s1 with
           | b :: s2 =>
               if sp2 a b then Some s2
               else match s2 with
                    | c :: s3 => if sp3 a b c then Some s3 else None
                    | [] => None
                    end
           | [] => None
           end
  | [] => None
  end.

(** The bytes of a text between its leading and trailing white space. *)
Definition strip_chars (l : list ascii) : list ascii :=
  rev (rstrip_rev (rev (lstrip l))).

(** What makes a token: it is not empty, it holds no delimiter, and it
    neither begins nor ends with white space. *)
Definition clean_token (t : string) : Prop :=
  t ≠ "" ∧ strip t = t ∧ Forall (λ a, is_delim a = false) (list_ascii_of_string t).

(** The number of tag lists that hold [t]. *)
Definition holders (t : string) (tl : list (list string)) : Z :=
  Z.of_nat (length (filter (λ tags, t ∈ tags) tl)).

(** The tokens of a row, the token lists of a frame and its called rows, as
    [compute_call_distribution] reads them: without creating a column. *)
Definition row_tags (instant_repr : Z → string) (r : gmap string cell) : list string :=
  _split_tags instant_repr (cell_at r COL_TAGS).

Definition tag_lists (instant_repr : Z → string) (df : DataFrame) : list (list string) :=
  map (λ ir, row_tags instant_repr ir.2) (rows df).

Definition calls_of (df : DataFrame) : Z :=
  count_rows (λ r, notna (cell_at r COL_TS)) (rows df).

(** The order of the table: more contacts first, and the tag in the order of
    its characters among equal counts. *)
Definition dist_le (a b : DistRow) : Prop :=
  count b < count a ∨ (count a = count b ∧ String.leb (tag a) (tag b) = true).

Definition dist_row (total_calls : Z) (item : string * Z) : DistRow :=
  {| tag := item.1; count := item.2;
     rate := (inject_Z item.2 / inject_Z total_calls)%Q |}.

(** ** Frames of the further examples *)

Module Cases.

(** Three rows: a call with two tags, a tag without a call, a call without
    tag. *)
Definition call_two_tags : gmap string cell :=
  {[ COL_TS := Str "2024-01-05"; COL_TAGS := Str "Pitch, Meeting" ]}.

Definition tag_no_call : gmap string cell :=
  {[ COL_TS := NaN; COL_TAGS := Str "Pitch" ]}.

Definition call_no_tag : gmap string cell :=
  {[ COL_TS := Str "2024-02-01"; COL_TAGS := NaN ]}.

Definition tagged_calls : DataFrame :=
  mkDF [COL_TS; COL_TAGS] [(0, call_two_tags); (1, tag_no_call); (2, call_no_tag)].

(** Tags and no call at all, in a frame without the column of the tags. *)
Definition never_called : DataFrame :=
  mkDF [COL_TS; COL_STATUS]
       [(0, {[ COL_TS := NaN; COL_STATUS := Str "Email sent" ]});
        (1, {[ COL_TS := NaN; COL_STATUS := NaN ]})].

(** The rows of [tagged_calls] in another order, under other labels, with
    the columns in another order and one more column. *)
Definition tagged_calls_shuffled : DataFrame :=
  mkDF [COL_CAMPAIGN; COL_TAGS; COL_TS]
       [(7, {[ COL_TS := NaN; COL_TAGS := Str "Pitch"; COL_CAMPAIGN := Str "A" ]});
        (3, {[ COL_TS := Str "2024-01-05"; COL_TAGS := Str "Pitch, Meeting";
               COL_CAMPAIGN := Str "B" ]});
        (5, {[ COL_TS := Str "2024-02-01"; COL_TAGS := NaN; COL_CAMPAIGN := NaN ]})].

(** The rows of [tagged_calls] in another order, under other labels, and
    the two columns exchanged. *)
Definition tagged_calls_reversed : DataFrame :=
  mkDF [COL_TAGS; COL_TS] [(9, tag_no_call); (4, call_no_tag); (6, call_two_tags)].

End Cases.

(** The four cells of a row that [compute_metrics] reads, a column that is
    missing read as NaN, and the frame as the list of these. *)
Definition kpi_cells (cols : list string) (r : gmap string cell) : list cell :=
  map (field cols r) [COL_TS; COL_TAGS; COL_STATUS; COL_PHASE].

Definition kpi_view (df : DataFrame) : list (list cell) :=
  map (λ ir, kpi_cells (columns df) ir.2) (rows df).

(** A classification of the rows that reads the four cells only. *)
Definition reads_kpi_cells (p : list string → gmap string cell → bool) : Prop :=
  ∀ cols r cols' r', kpi_cells cols r = kpi_cells cols' r' → p cols r = p cols' r'.

(** The criteria in which every empty list of allowed values has been
    replaced by no list. *)
Definition drop_empty (v : option (list string)) : option (list string) :=
  match v with
  | Some [] => None
  | _ => v
  end.

Definition without_empty_lists (crit : Criteria) : Criteria :=
  mkCriteria (drop_empty (campaigns crit)) (drop_empty (titles crit))
             (drop_empty (sectors crit)) (drop_empty (sizes crit))
             (drop_empty (locations crit)) (start_date crit) (end_date crit).

(** Criteria that bound the dates only. *)
Definition only_period (start stop : option Z) : Criteria :=
  mkCriteria None None None None None start stop.

(** * Part III. Lemmas *)

(** ** Series of a frame *)

Lemma getitem_in df c :
  c ∈ columns df → getitem df c = Ok (rseries (rows df) (λ r, cell_at r c)).
Proof. intros Hc. unfold getitem. by rewrite decide_True. Qed.

Lemma getitem_notin df c : c ∉ columns df → getitem df c = Raise (KeyError c).
Proof. intros Hc. unfold getitem. by rewrite decide_False. Qed.

Lemma s_index_rseries {A} rs (f : gmap string cell → A) : s_index (rseries rs f) = rs.*1.
Proof. unfold s_index, rseries. induction rs as [|[i r] rs IH]; csimpl; congruence. Qed.

Lemma s_values_rseries {A} rs (f : gmap string cell → A) :
  s_values (rseries rs f) = map (λ ir, f ir.2) rs.
Proof. unfold s_values, rseries. induction rs as [|[i r] rs IH]; csimpl; congruence. Qed.

Lemma s_map_rseries {A B} (g : A → B) rs (f : gmap string cell → A) :
  s_map g (rseries rs f) = rseries rs (λ r, g (f r)).
Proof. unfold s_map, rseries. induction rs as [|[i r] rs IH]; simpl; congruence. Qed.

Lemma logical_op_rseries op rs f g :
  logical_op op (rseries rs f) (rseries rs g) = rseries rs (λ r, op (f r) (g r)).
Proof.
  unfold logical_op. rewrite !s_index_rseries, decide_True by done.
  unfold rseries. induction rs as [|[i r] rs IH]; simpl; congruence.
Qed.

Lemma s_sum_rseries rs f : s_sum (rseries rs f) = count_rows f rs.
Proof.
  unfold s_sum, count_rows, rseries. f_equal.
  induction rs as [|[i r] rs IH]; simpl; [done|].
  destruct (f r); simpl; congruence.
Qed.

Lemma select_rseries df f :
  select df (s_values (rseries (rows df) f)) = mkDF (columns df) (filter_rows f (rows df)).
Proof.
  unfold select, filter_rows. f_equal. rewrite s_values_rseries.
  induction (rows df) as [|[i r] rs IH]; simpl; [done|].
  destruct (f r); csimpl; congruence.
Qed.

Lemma getitem_bool_rseries df f :
  getitem_bool df (rseries (rows df) f) = Ok (mkDF (columns df) (filter_rows f (rows df))).
Proof.
  unfold getitem_bool. rewrite s_index_rseries.
  rewrite decide_True by done. by rewrite select_rseries.
Qed.

Lemma false_series_rseries df :
  default_index df → false_series (df_len df) = rseries (rows df) (λ _, false).
Proof.
  unfold default_index, df_index, false_series, rseries. intros Hidx.
  transitivity (map (λ z : Z, (z, false)) (map Z.of_nat (seq 0 (df_len df)))).
  - by rewrite map_map.
  - rewrite <- Hidx. clear Hidx.
    induction (rows df) as [|[i r] rs IH]; csimpl; [done|]. simpl in IH. by rewrite IH.
Qed.

Lemma rseries_map {A} (h : gmap string cell → gmap string cell) rs (f : gmap string cell → A) :
  rseries (map (λ ir, (ir.1, h ir.2)) rs) f = rseries rs (λ r, f (h r)).
Proof. unfold rseries. by rewrite map_map. Qed.

Lemma rseries_ext {A} rs (f g : gmap string cell → A) :
  (∀ r, f r = g r) → rseries rs f = rseries rs g.
Proof. intros Hfg. unfold rseries. apply map_ext. intros [i r]. simpl. by rewrite Hfg. Qed.

Lemma lookup_map {A B} (f : A → B) (l : list A) (k : nat) :
  map f l !! k = f <$> l !! k.
Proof. revert k. induction l as [|a l IH]; intros [|k]; simpl; auto. Qed.

Lemma map_rows_id (rs : list (Z * gmap string cell)) :
  map (λ ir, (ir.1, ir.2)) rs = rs.
Proof. induction rs as [|[i r] rs IH]; simpl; congruence. Qed.

Lemma mkDF_eta d : mkDF (columns d) (rows d) = d.
Proof. by destruct d. Qed.

Lemma result_bind_ok {A} (m : result A) : (m ≫= Ok) = m.
Proof. by destruct m. Qed.

(** ** Counting *)

Lemma count_rows_bounds p rs : 0 ≤ count_rows p rs ≤ Z.of_nat (length rs).
Proof.
  unfold count_rows. split; [lia|].
  apply inj_le, List.filter_length_le.
Qed.

Lemma count_rows_mono p q rs :
  (∀ r, p r = true → q r = true) → count_rows p rs ≤ count_rows q rs.
Proof.
  intros Hpq. unfold count_rows. apply inj_le.
  induction rs as [|[i r] rs IH]; simpl; [done|].
  destruct (p r) eqn:Hp; [rewrite (Hpq _ Hp); simpl; lia|].
  destruct (q r); simpl; lia.
Qed.

Lemma count_rows_nil p : count_rows p [] = 0.
Proof. done. Qed.

Lemma count_rows_cons p i r rs :
  count_rows p ((i, r) :: rs) = (if p r then 1 else 0) + count_rows p rs.
Proof. unfold count_rows. simpl. destruct (p r); simpl; lia. Qed.

Lemma count_rows_ext p q rs : (∀ r, p r = q r) → count_rows p rs = count_rows q rs.
Proof.
  intros Hpq. induction rs as [|[i r] rs IH]; [done|].
  by rewrite !count_rows_cons, Hpq, IH.
Qed.

Lemma count_rows_map p (h : gmap string cell → gmap string cell) rs :
  count_rows p (map (λ ir, (ir.1, h ir.2)) rs) = count_rows (λ r, p (h r)) rs.
Proof.
  induction rs as [|[i r] rs IH]; [done|].
  simpl. by rewrite !count_rows_cons, IH.
Qed.

(** Two disjoint sets of rows are together no more than all rows. *)
Lemma count_rows_disjoint p q rs :
  (∀ r, p r = true → q r = true → False) →
  count_rows p rs + count_rows q rs ≤ Z.of_nat (length rs).
Proof.
  intros Hd. induction rs as [|[i r] rs IH]; [done|].
  rewrite !count_rows_cons. simpl length. specialize (Hd r).
  destruct (p r), (q r); first [lia | by destruct Hd].
Qed.

(** The inequality behind the bound on the overall conversion rate: [P] and
    [M] are disjoint, [P] lies within [C] and [M] within [E]. *)
Lemma count_rows_overall P M C E rs :
  (∀ r, P r = true → C r = true) →
  (∀ r, M r = true → E r = true) →
  (∀ r, M r = true → P r = true → False) →
  count_rows P rs + count_rows M rs + count_rows (λ r, M r && C r) rs
  ≤ count_rows C rs + count_rows E rs.
Proof.
  intros HPC HME HMP. induction rs as [|[i r] rs IH]; [done|].
  rewrite !count_rows_cons.
  specialize (HPC r). specialize (HME r). specialize (HMP r).
  destruct (P r), (M r), (C r), (E r); simpl;
    first [lia | by destruct HMP | by discriminate HPC | by discriminate HME].
Qed.

Lemma count_rows_filter (p : gmap string cell → bool) (P : gmap string cell → Prop)
    `{∀ r, Decision (P r)} rs :
  (∀ r, p r = true ↔ P r) →
  count_rows p rs = Z.of_nat (length (filter (λ ir, P ir.2) rs)).
Proof.
  intros HpP. unfold count_rows. f_equal.
  induction rs as [|[i r] rs IH]; [done|].
  rewrite filter_cons. simpl.
  destruct (p r) eqn:Hp.
  - rewrite decide_True by (by apply HpP). simpl. by rewrite IH.
  - rewrite decide_False; [done|]. intros HP. apply HpP in HP. congruence.
Qed.

Lemma count_rows_app p rs1 rs2 :
  count_rows p (rs1 ++ rs2) = count_rows p rs1 + count_rows p rs2.
Proof.
  unfold count_rows. rewrite List.filter_app, length_app. lia.
Qed.

Lemma count_rows_zero p rs : count_rows p rs = 0 ↔ ∀ x, x ∈ rs → p x.2 = false.
Proof.
  induction rs as [|[i r] rs IH].
  - split; [|done]. intros _ x Hx. by apply elem_of_nil in Hx.
  - rewrite count_rows_cons. pose proof (count_rows_bounds p rs) as Hb. split.
    + intros H0 x Hx. apply elem_of_cons in Hx. destruct Hx as [->|Hx].
      * simpl. destruct (p r); [lia|done].
      * apply IH; [|done]. destruct (p r); lia.
    + intros Hall. pose proof (Hall (i, r)) as Hr. simpl in Hr.
      rewrite Hr by (apply elem_of_cons; by left).
      simpl. apply IH. intros x Hx. apply Hall. apply elem_of_cons. by right.
Qed.

(** ** Selections *)

Lemma filter_rows_all p rs : (∀ x, x ∈ rs → p x.2 = true) → filter_rows p rs = rs.
Proof.
  unfold filter_rows. induction rs as [|[i r] rs IH]; intros Hall; [done|].
  simpl. pose proof (Hall (i, r)) as Hr. simpl in Hr.
  rewrite Hr by (apply elem_of_cons; by left).
  f_equal. apply IH. intros x Hx. apply Hall. apply elem_of_cons. by right.
Qed.

Lemma filter_rows_ext p q rs : (∀ r, p r = q r) → filter_rows p rs = filter_rows q rs.
Proof. intros Hpq. unfold filter_rows. apply List.filter_ext. intros [i r]. apply Hpq. Qed.

Lemma filter_rows_map p (h : gmap string cell → gmap string cell) rs :
  filter_rows p (map (λ ir, (ir.1, h ir.2)) rs)
  = map (λ ir, (ir.1, h ir.2)) (filter_rows (λ r, p (h r)) rs).
Proof.
  unfold filter_rows. induction rs as [|[i r] rs IH]; [done|].
  simpl. destruct (p (h r)); simpl; by rewrite IH.
Qed.

Lemma filter_rows_elem p rs x : x ∈ filter_rows p rs → x ∈ rs ∧ p x.2 = true.
Proof.
  unfold filter_rows. intros Hx. apply list_elem_of_In, List.filter_In in Hx.
  destruct Hx as [Hx Hp]. split; [by apply list_elem_of_In|done].
Qed.

Lemma filter_rows_fallback p rs :
  filter_rows (λ r, p r || bool_decide (count_rows p rs = 0)) rs = fallback_rows p rs.
Proof.
  unfold fallback_rows. destruct (decide (count_rows p rs = 0)) as [H0|H0].
  - rewrite bool_decide_eq_true_2 by done. apply filter_rows_all.
    intros x _. apply orb_true_r.
  - rewrite bool_decide_eq_false_2 by done. apply filter_rows_ext.
    intros r. apply orb_false_r.
Qed.

Lemma fallback_rows_map p (h : gmap string cell → gmap string cell) rs :
  fallback_rows p (map (λ ir, (ir.1, h ir.2)) rs)
  = map (λ ir, (ir.1, h ir.2)) (fallback_rows (λ r, p (h r)) rs).
Proof.
  unfold fallback_rows. rewrite count_rows_map.
  destruct (decide _); [done|apply filter_rows_map].
Qed.

Lemma fallback_rows_ext p q rs :
  (∀ r, p r = q r) → fallback_rows p rs = fallback_rows q rs.
Proof.
  intros Hpq. unfold fallback_rows. rewrite (count_rows_ext p q rs Hpq).
  destruct (decide _); [done|by apply filter_rows_ext].
Qed.

(** A selection of what a fallback filter kept is kept whole by the same
    filter. *)
Lemma fallback_rows_stable p rs rs' :
  (∀ x, x ∈ rs' → x ∈ fallback_rows p rs) → fallback_rows p rs' = rs'.
Proof.
  unfold fallback_rows. intros Hsub.
  destruct (decide (count_rows p rs' = 0)) as [|Hne]; [done|].
  destruct (decide (count_rows p rs = 0)) as [H0|H0].
  - exfalso. apply Hne. apply count_rows_zero. intros x Hx.
    by apply (proj1 (count_rows_zero p rs) H0), Hsub.
  - apply filter_rows_all. intros x Hx. by apply (filter_rows_elem p rs), Hsub.
Qed.

(** ** The columns [compute_metrics] ensures *)

Lemma ensure_column_spec data c0 :
  c0 ∈ columns (ensure_column data c0) ∧
  (∀ c, c ∈ columns data → c ∈ columns (ensure_column data c0)) ∧
  ∃ h, rows (ensure_column data c0) = map (λ ir, (ir.1, h ir.2)) (rows data) ∧
       ∀ r c, field (columns (ensure_column data c0)) (h r) c = field (columns data) r c.
Proof.
  unfold ensure_column. destruct (decide (c0 ∈ columns data)) as [Hin|Hout].
  - split; [done|]. split; [done|]. exists (λ r, r). split; [|done].
    by rewrite map_rows_id.
  - unfold setitem_scalar. simpl. rewrite decide_False by done.
    split; [apply elem_of_app; right; by apply list_elem_of_singleton|].
    split; [intros c Hc; apply elem_of_app; by left|].
    exists (λ r, <[c0:=NaN]> r). split; [done|].
    intros r c. unfold field, cell_at.
    destruct (decide (c = c0)) as [->|Hne].
    + rewrite decide_True by (apply elem_of_app; right; apply list_elem_of_singleton; done).
      rewrite decide_False by done.
      by rewrite lookup_insert_eq.
    + rewrite lookup_insert_ne by done.
      destruct (decide (c ∈ columns data)) as [Hc|Hc].
      * by rewrite decide_True by (apply elem_of_app; by left).
      * rewrite decide_False; [done|].
        intros Hc'. apply elem_of_app in Hc'. destruct Hc' as [Hc'|Hc']; [done|].
        by apply list_elem_of_singleton in Hc'.
Qed.

Lemma ensure_columns_spec cs data :
  (∀ c, c ∈ cs → c ∈ columns (foldl ensure_column data cs)) ∧
  (∀ c, c ∈ columns data → c ∈ columns (foldl ensure_column data cs)) ∧
  ∃ h, rows (foldl ensure_column data cs) = map (λ ir, (ir.1, h ir.2)) (rows data) ∧
       ∀ r c, field (columns (foldl ensure_column data cs)) (h r) c
              = field (columns data) r c.
Proof.
  revert data. induction cs as [|c0 cs IH]; intros data; simpl.
  - split; [set_solver|]. split; [done|]. exists (λ r, r). split; [|done].
    by rewrite map_rows_id.
  - destruct (ensure_column_spec data c0) as (H0 & Hkeep & h0 & Hrows0 & Hf0).
    destruct (IH (ensure_column data c0)) as (Hcs & Hkeep' & h & Hrows & Hf).
    split; [|split].
    + intros c Hc. apply elem_of_cons in Hc. destruct Hc as [Hc|Hc]; [|by auto].
      subst c. by apply Hkeep'.
    + auto.
    + exists (λ r, h (h0 r)). split.
      * rewrite Hrows, Hrows0. by rewrite map_map.
      * intros r c. by rewrite Hf, Hf0.
Qed.

Lemma getitem_ensured cs df c :
  c ∈ cs →
  getitem (foldl ensure_column df cs) c
  = Ok (rseries (rows df) (λ r, field (columns df) r c)).
Proof.
  intros Hc. destruct (ensure_columns_spec cs df) as (Hcs & _ & h & Hrows & Hf).
  rewrite getitem_in by auto. rewrite Hrows, rseries_map. f_equal.
  apply rseries_ext. intros r. rewrite <- Hf. unfold field.
  by rewrite decide_True by auto.
Qed.

(** ** [compute_metrics] row by row *)

Lemma compute_metrics_rows instant_repr df :
  let cols := columns df in
  let n := λ p, count_rows p (rows df) in
  let calls := n (called cols) in
  let emails := n (mailed cols) in
  let by_phone := n (rdv_by_phone instant_repr cols) in
  let by_email := n (rdv_by_email instant_repr cols) in
  compute_metrics instant_repr df
  = Ok {| calls_total := calls;
          calls_connected := n (connected instant_repr cols);
          calls_pitched := n (pitched instant_repr cols);
          rdv_phone := by_phone;
          connection_rate := rate_or_zero (n (connected instant_repr cols)) calls;
          pitch_rate := rate_or_zero (n (pitched instant_repr cols))
                                     (n (connected instant_repr cols));
          rdv_phone_rate := rate_or_zero by_phone calls;
          contacts_email := emails;
          contacts_opened := n (opened cols);
          contacts_replied := n (replied cols);
          open_rate := rate_or_zero (n (opened cols)) emails;
          reply_rate := rate_or_zero (n (replied cols)) emails;
          rdv_email := by_email;
          rdv_total := by_phone + by_email;
          email_conv_rate := rate_or_zero by_email emails;
          phone_conv_rate := rate_or_zero by_phone calls;
          overall_conv_rate :=
            (inject_Z (by_phone + by_email) /
             inject_Z (Z.max (emails + calls
                              - n (λ r, rdv_by_email instant_repr cols r && called cols r))
                             1))%Q |}.
Proof.
  intros cols n calls emails by_phone by_email.
  unfold compute_metrics.
  rewrite !getitem_ensured by set_solver. simpl.
  unfold s_and, s_not.
  repeat first [ rewrite s_map_rseries | rewrite logical_op_rseries
               | rewrite s_sum_rseries ].
  reflexivity.
Qed.

(** ** Facts on the row predicates *)

Lemma has_any_tag_mono tags (S T : gset string) :
  S ⊆ T → has_any_tag tags S = true → has_any_tag tags T = true.
Proof.
  intros HST. unfold has_any_tag. rewrite !existsb_exists.
  intros (tag & Hin & Htag). exists tag. split; [done|].
  apply bool_decide_eq_true. apply bool_decide_eq_true in Htag. by apply HST.
Qed.

Lemma has_any_tag_elem tags (S : gset string) :
  has_any_tag tags S = true ↔ ∃ tag, tag ∈ tags ∧ tag ∈ S.
Proof.
  unfold has_any_tag. rewrite existsb_exists. split.
  - intros (tag & Hin & Htag). exists tag. split; [by apply list_elem_of_In|].
    by apply bool_decide_eq_true in Htag.
  - intros (tag & Hin & Htag). exists tag. split; [by apply list_elem_of_In|].
    by apply bool_decide_eq_true.
Qed.

Lemma rdv_subset_pitched : CALL_TAGS_RDV ⊆ CALL_TAGS_PITCHED.
Proof.
  unfold CALL_TAGS_RDV, CALL_TAGS_PITCHED. intros x.
  rewrite !elem_of_union, !elem_of_singleton. tauto.
Qed.

Lemma pitched_subset_connected : CALL_TAGS_PITCHED ⊆ CALL_TAGS_CONNECTED.
Proof.
  unfold CALL_TAGS_PITCHED, CALL_TAGS_CONNECTED. intros x.
  rewrite !elem_of_union, !elem_of_singleton. tauto.
Qed.

Section RowFacts.

Variable instant_repr : Z → string.
Variable cols : list string.

Lemma connected_called r : connected instant_repr cols r = true → called cols r = true.
Proof. unfold connected. by intros [_ ?]%andb_true_iff. Qed.

Lemma pitched_connected r :
  pitched instant_repr cols r = true → connected instant_repr cols r = true.
Proof.
  unfold pitched, connected. intros [Ht Hc]%andb_true_iff.
  apply andb_true_iff. split; [|done].
  by apply (has_any_tag_mono _ _ _ pitched_subset_connected).
Qed.

Lemma rdv_by_phone_pitched r :
  rdv_by_phone instant_repr cols r = true → pitched instant_repr cols r = true.
Proof.
  unfold rdv_by_phone, pitched. intros [Ht Hc]%andb_true_iff.
  apply andb_true_iff. split; [|done].
  by apply (has_any_tag_mono _ _ _ rdv_subset_pitched).
Qed.

Lemma rdv_by_phone_called r :
  rdv_by_phone instant_repr cols r = true → called cols r = true.
Proof. unfold rdv_by_phone. by intros [_ ?]%andb_true_iff. Qed.

Lemma eq_str_inv s c : eq_str s c = true → c = Str s.
Proof.
  destruct c; simpl; try discriminate.
  intros H. apply bool_decide_eq_true in H. by subst.
Qed.

Lemma opened_mailed r : opened cols r = true → mailed cols r = true.
Proof. unfold opened, mailed. by intros ->%eq_str_inv. Qed.

Lemma replied_mailed r : replied cols r = true → mailed cols r = true.
Proof. unfold replied, mailed. by intros ->%eq_str_inv. Qed.

Lemma rdv_by_email_replied r :
  rdv_by_email instant_repr cols r = true → replied cols r = true.
Proof. unfold rdv_by_email. by intros [[_ ?]%andb_true_iff _]%andb_true_iff. Qed.

Lemma rdv_by_email_not_phone r :
  rdv_by_email instant_repr cols r = true →
  rdv_by_phone instant_repr cols r = true → False.
Proof.
  unfold rdv_by_email. intros [_ Hn]%andb_true_iff Hp.
  rewrite Hp in Hn. discriminate.
Qed.

End RowFacts.

Lemma eq_str_true s c : eq_str s c = true ↔ c = Str s.
Proof.
  split; [apply eq_str_inv|]. intros ->. simpl. by apply bool_decide_eq_true.
Qed.

Lemma rdv_by_phone_iff repr cols r :
  rdv_by_phone repr cols r = true ↔ in_rdv_phone repr cols r.
Proof.
  unfold rdv_by_phone, in_rdv_phone, called.
  rewrite andb_true_iff, has_any_tag_elem, Exists_exists. tauto.
Qed.

Lemma rdv_by_email_iff repr cols r :
  rdv_by_email repr cols r = true ↔ email_meeting repr cols r.
Proof.
  unfold rdv_by_email, email_meeting, replied.
  rewrite !andb_true_iff, negb_true_iff, !eq_str_true, <- rdv_by_phone_iff.
  destruct (rdv_by_phone repr cols r); intuition congruence.
Qed.

(** ** Rates *)

Lemma Qdiv_unit_interval a b :
  0 ≤ a ≤ b → 0 < b → (0 <= inject_Z a / inject_Z b <= 1)%Q.
Proof.
  intros [Ha Hab] Hb.
  assert (Hb' : (0 < inject_Z b)%Q) by (rewrite (Zlt_Qlt 0 b) in Hb; exact Hb).
  split.
  - apply Qle_shift_div_l; [done|]. rewrite Qmult_0_l.
    rewrite (Zle_Qle 0 a) in Ha. exact Ha.
  - apply Qle_shift_div_r; [done|]. rewrite Qmult_1_l.
    rewrite (Zle_Qle a b) in Hab. exact Hab.
Qed.

Lemma rate_or_zero_unit_interval a b :
  0 ≤ a ≤ b → (0 <= rate_or_zero a b <= 1)%Q.
Proof.
  intros Hab. unfold rate_or_zero. destruct (decide (b = 0)).
  - split; apply Qle_refl || discriminate.
  - apply Qdiv_unit_interval; [done|lia].
Qed.

Lemma rate_or_zero_zero a : rate_or_zero a 0 = 0%Q.
Proof. done. Qed.

(** ** Missing columns in the distribution *)

(** [compute_call_distribution] reads the column of the call timestamps
    without creating it: on a frame with rows and columns but without that
    column it raises. *)
Lemma distribution_needs_timestamps instant_repr df :
  df_empty df = false → COL_TS ∉ columns df →
  compute_call_distribution instant_repr df = Raise (KeyError COL_TS).
Proof.
  intros Hne Hout. unfold compute_call_distribution.
  rewrite Hne. cbv zeta. by rewrite (getitem_notin df COL_TS).
Qed.

(** It reads the column of the tags in the same way, once a row was
    called. *)
Lemma distribution_needs_tags instant_repr df :
  df_empty df = false → COL_TS ∈ columns df → COL_TAGS ∉ columns df →
  count_rows (λ r, notna (cell_at r COL_TS)) (rows df) ≠ 0 →
  compute_call_distribution instant_repr df = Raise (KeyError COL_TAGS).
Proof.
  intros Hne Hin Hout Hcalls. unfold compute_call_distribution.
  rewrite Hne. cbv zeta. rewrite (getitem_in df COL_TS) by done. simpl.
  rewrite s_map_rseries, s_sum_rseries.
  rewrite decide_False by done. by rewrite (getitem_notin df COL_TAGS).
Qed.

(** ** [apply_filters]: parsing, and the steps after it *)

Lemma map_fmap {A B} (f : A → B) (l : list A) : map f l = f <$> l.
Proof. done. Qed.

Section FilterLemmas.

Variable read_dates : list cell → result (list (option Z)).
Variable aware : Z → bool.

Local Abbreviation to_datetime := (to_datetime read_dates).
Local Abbreviation parse_column := (parse_column read_dates).
Local Abbreviation parse_dates := (parse_dates read_dates).
Local Abbreviation apply_filters := (apply_filters read_dates aware).
Local Abbreviation compare_instants := (compare_instants aware).
Local Abbreviation ge_instant := (ge_instant aware).
Local Abbreviation le_instant := (le_instant aware).
Local Abbreviation tz_aware := (tz_aware aware).
Local Abbreviation naive := (naive aware).

Lemma COL_TS_ne_ACTIVITY : COL_TS ≠ COL_ACTIVITY.
Proof. apply (proj1 (bool_decide_eq_false _)). by vm_compute. Qed.

Lemma to_datetime_stamps values :
  forallb is_stamp values = true → to_datetime values = Ok values.
Proof. intros H. unfold to_datetime. by rewrite H. Qed.

Lemma read_as_stamp c : is_stamp c = true → read_as c c.
Proof. by intros H. Qed.

Lemma to_datetime_read values values' :
  to_datetime values = Ok values' → Forall2 read_as values values'.
Proof.
  unfold to_datetime. destruct (forallb is_stamp values) eqn:Hall.
  - intros [= <-]. induction values as [|c values IH]; [constructor|].
    simpl in Hall. apply andb_true_iff in Hall as [Hc Hall].
    constructor; [by apply read_as_stamp|by apply IH].
  - destruct (read_dates values) as [read|e]; simpl; [|discriminate].
    intros [= <-]. apply Forall2_same_length_lookup_2; [by rewrite length_imap|].
    intros k c v Hc Hv. rewrite list_lookup_imap, Hc in Hv. simpl in Hv.
    injection Hv as <-. unfold read_as.
    destruct (notna c); [|done]. by destruct (read !! k) as [[t|]|].
Qed.

(** One turn of the loop. *)
Lemma parse_column_absent d c : c ∉ columns d → parse_column d c = Ok d.
Proof. intros Hc. unfold parse_column. by rewrite decide_False. Qed.

Lemma setitem_values_rows (rs : list (Z * gmap string cell)) c values :
  Forall2 read_as (map (λ ir, cell_at ir.2 c) rs) values →
  Forall2 (λ ir ir', ir'.1 = ir.1 ∧
                     ∃ v, ir'.2 = <[c:=v]> ir.2 ∧ read_as (cell_at ir.2 c) v)
          rs (zip_with (λ ir v, (ir.1, <[c:=v]> ir.2)) rs values).
Proof.
  revert values. induction rs as [|[i r] rs IH]; intros values H.
  - apply Forall2_nil_inv_l in H. subst values. constructor.
  - simpl in H. apply Forall2_cons_inv_l in H as (v & values' & Hv & H & ->).
    simpl. constructor; [|by apply IH]. split; [done|]. by exists v.
Qed.

Lemma parse_column_present d c d' :
  c ∈ columns d → parse_column d c = Ok d' →
  columns d' = columns d ∧
  Forall2 (λ ir ir', ir'.1 = ir.1 ∧
                     ∃ v, ir'.2 = <[c:=v]> ir.2 ∧ read_as (cell_at ir.2 c) v)
          (rows d) (rows d').
Proof.
  intros Hc. unfold parse_column. rewrite decide_True by done.
  rewrite getitem_in by done. simpl. rewrite s_values_rseries.
  destruct (to_datetime _) as [values|e] eqn:Hv; simpl; [|discriminate].
  intros [= <-]. split; [done|]. simpl.
  by apply setitem_values_rows, to_datetime_read.
Qed.

Lemma parse_dates_steps df :
  parse_dates df = parse_column df COL_TS ≫= λ d, parse_column d COL_ACTIVITY.
Proof. done. Qed.

(** The step of one column, the column being there or not. *)
Lemma parse_column_rows d c d' :
  parse_column d c = Ok d' →
  columns d' = columns d ∧
  Forall2 (λ ir ir', ir'.1 = ir.1 ∧
                     if decide (c ∈ columns d)
                     then ∃ v, ir'.2 = <[c:=v]> ir.2 ∧ read_as (cell_at ir.2 c) v
                     else ir'.2 = ir.2)
          (rows d) (rows d').
Proof.
  intros H. destruct (decide (c ∈ columns d)) as [Hc|Hc].
  - by apply parse_column_present.
  - rewrite parse_column_absent in H by done. injection H as <-.
    split; [done|]. apply Forall_Forall2_diag, Forall_forall. by intros [i r] _.
Qed.

Lemma cell_at_insert_ne (r : gmap string cell) c c' v :
  c ≠ c' → cell_at (<[c:=v]> r) c' = cell_at r c'.
Proof. intros Hne. unfold cell_at. by rewrite lookup_insert_ne. Qed.

Lemma row_read_two cols r r1 r0 :
  (if decide (COL_TS ∈ cols)
   then ∃ v, r1 = <[COL_TS:=v]> r ∧ read_as (cell_at r COL_TS) v
   else r1 = r) →
  (if decide (COL_ACTIVITY ∈ cols)
   then ∃ v, r0 = <[COL_ACTIVITY:=v]> r1 ∧ read_as (cell_at r1 COL_ACTIVITY) v
   else r0 = r1) →
  row_read cols r r0.
Proof.
  pose proof COL_TS_ne_ACTIVITY as Hne.
  assert (Hne' : COL_ACTIVITY ≠ COL_TS) by done.
  intros H1 H0 c.
  destruct (decide ((c = COL_TS ∨ c = COL_ACTIVITY) ∧ c ∈ cols)) as [[[->| ->] Hc]|Hn].
  - rewrite (decide_True (P := COL_TS ∈ cols)) in H1 by done.
    destruct H1 as (v1 & -> & Hv1). exists v1. split; [|done].
    destruct (decide (COL_ACTIVITY ∈ cols)); [destruct H0 as (v0 & -> & _)|subst r0].
    + rewrite lookup_insert_ne by done. by rewrite lookup_insert_eq.
    + by rewrite lookup_insert_eq.
  - rewrite (decide_True (P := COL_ACTIVITY ∈ cols)) in H0 by done.
    destruct H0 as (v0 & -> & Hv0). exists v0. split; [by rewrite lookup_insert_eq|].
    destruct (decide (COL_TS ∈ cols)); [destruct H1 as (v1 & -> & _)|by subst r1].
    by rewrite cell_at_insert_ne in Hv0.
  - destruct (decide (c = COL_TS)) as [->|Hc1].
    + assert (COL_TS ∉ cols) by (intros ?; apply Hn; auto).
      rewrite (decide_False (P := COL_TS ∈ cols)) in H1 by done. subst r1.
      destruct (decide (COL_ACTIVITY ∈ cols)); [destruct H0 as (v0 & -> & _)|by subst r0].
      by rewrite lookup_insert_ne by done.
    + destruct (decide (c = COL_ACTIVITY)) as [->|Hc0].
      * assert (COL_ACTIVITY ∉ cols) by (intros ?; apply Hn; auto).
        rewrite (decide_False (P := COL_ACTIVITY ∈ cols)) in H0 by done. subst r0.
        destruct (decide (COL_TS ∈ cols)); [destruct H1 as (v1 & -> & _)|by subst r1].
        by rewrite lookup_insert_ne by done.
      * destruct (decide (COL_TS ∈ cols)); [destruct H1 as (v1 & -> & _)|subst r1];
          (destruct (decide (COL_ACTIVITY ∈ cols));
           [destruct H0 as (v0 & -> & _)|subst r0]);
          by rewrite ?lookup_insert_ne by done.
Qed.

(** The parsing keeps the columns, the rows and their labels, and changes
    the cells of the date columns only. *)
Lemma parse_dates_read df d0 : parse_dates df = Ok d0 → frame_read df d0.
Proof.
  rewrite parse_dates_steps.
  destruct (parse_column df COL_TS) as [d1|e] eqn:H1; simpl; [|discriminate].
  intros H0. apply parse_column_rows in H1 as [C1 R1].
  apply parse_column_rows in H0 as [C0 R0]. rewrite C1 in R0.
  split; [congruence|].
  eapply Forall2_trans; [|exact R1|exact R0].
  intros [i r] [i1 r1] [i0 r0] [Hi1 Hr1] [Hi0 Hr0]. simpl in *.
  split; [congruence|]. by eapply row_read_two.
Qed.


Lemma frame_read_length df d0 : frame_read df d0 → df_len d0 = df_len df.
Proof. intros [_ H]. unfold df_len. symmetry. by eapply Forall2_length. Qed.


Lemma row_read_other cols r r0 c :
  row_read cols r r0 → ¬ ((c = COL_TS ∨ c = COL_ACTIVITY) ∧ c ∈ cols) →
  cell_at r0 c = cell_at r c.
Proof.
  intros H Hc. specialize (H c). rewrite decide_False in H by done.
  unfold cell_at. by rewrite H.
Qed.

Lemma row_read_date cols r r0 c :
  row_read cols r r0 → c ∈ [COL_TS; COL_ACTIVITY] → c ∈ cols →
  ∃ v, r0 !! c = Some v ∧ read_as (cell_at r c) v.
Proof.
  intros H Hc Hcols. specialize (H c). rewrite decide_True in H; [done|].
  split; [|done]. apply elem_of_cons in Hc as [->|Hc]; [by left|].
  apply list_elem_of_singleton in Hc. by right.
Qed.

Lemma frame_read_parsed df d0 : frame_read df d0 → parsed d0.
Proof.
  intros [Hcols H] i0 r0 c Hin Hc Hcol. rewrite Hcols in Hcol.
  apply list_elem_of_lookup in Hin as [k Hk].
  destruct (Forall2_lookup_r _ _ _ _ _ H Hk) as ([i r] & _ & _ & Hr). simpl in Hr.
  destruct (row_read_date _ _ _ _ Hr Hc Hcol) as (v & Hv & Hs & _). eauto.
Qed.

Lemma parse_dates_is_parsed df d0 : parse_dates df = Ok d0 → parsed d0.
Proof. intros H. by eapply frame_read_parsed, parse_dates_read. Qed.

(** A datetime column is returned as it is. *)
Lemma setitem_values_same (rs : list (Z * gmap string cell)) c :
  (∀ i r, (i, r) ∈ rs → is_Some (r !! c)) →
  zip_with (λ ir v, (ir.1, <[c:=v]> ir.2)) rs (map (λ ir, cell_at ir.2 c) rs) = rs.
Proof.
  induction rs as [|[i r] rs IH]; intros H; [done|]. simpl. f_equal.
  - destruct (H i r) as [v Hv]; [apply elem_of_cons; by left|].
    unfold cell_at. rewrite Hv. simpl. by rewrite insert_id.
  - apply IH. intros j r' Hin. apply (H j). apply elem_of_cons. by right.
Qed.

Lemma parse_column_parsed d c :
  c ∈ [COL_TS; COL_ACTIVITY] → parsed d → parse_column d c = Ok d.
Proof.
  intros Hc Hp. destruct (decide (c ∈ columns d)) as [Hcol|Hcol];
    [|by apply parse_column_absent].
  unfold parse_column. rewrite decide_True by done.
  rewrite getitem_in by done. simpl. rewrite s_values_rseries.
  rewrite to_datetime_stamps.
  - simpl. unfold setitem_values. rewrite setitem_values_same; [by rewrite mkDF_eta|].
    intros i r Hin. destruct (Hp i r c Hin Hc Hcol) as (v & Hv & _). eauto.
  - apply forallb_forall. intros v Hv. apply in_map_iff in Hv as ([i r] & <- & Hin).
    apply list_elem_of_In in Hin. destruct (Hp i r c Hin Hc Hcol) as (v & Hv & Hs).
    simpl. unfold cell_at. by rewrite Hv.
Qed.

Lemma parse_dates_parsed d : parsed d → parse_dates d = Ok d.
Proof.
  intros Hp. rewrite parse_dates_steps.
  rewrite parse_column_parsed by (done || apply elem_of_cons; by left). simpl.
  apply parse_column_parsed; [|done]. apply elem_of_cons. right.
  apply elem_of_cons. by left.
Qed.

(** ** Selections *)

Lemma sub_frame_refl d : sub_frame d d.
Proof. by split. Qed.

Lemma sub_frame_trans d1 d2 d3 : sub_frame d1 d2 → sub_frame d2 d3 → sub_frame d1 d3.
Proof. intros [H1 H2] [H3 H4]. split; [congruence|auto]. Qed.

Lemma parsed_sub_frame d' d : sub_frame d' d → parsed d → parsed d'.
Proof.
  intros [Hc Hr] Hp i r c Hin Hcol Hcols. rewrite Hc in Hcols. eauto.
Qed.

Lemma tz_aware_elem values :
  tz_aware values = true ↔ ∃ t, Ts t ∈ values ∧ aware t = true.
Proof.
  unfold tz_aware. rewrite existsb_exists. split.
  - intros (c & Hin & Hc). destruct c; try done. exists t.
    split; [by apply list_elem_of_In|done].
  - intros (t & Hin & Ht). exists (Ts t). split; [by apply list_elem_of_In|done].
Qed.

Lemma column_values_elem d c v :
  v ∈ column_values d c ↔ ∃ i r, (i, r) ∈ rows d ∧ v = cell_at r c.
Proof.
  unfold column_values. rewrite map_fmap. rewrite list_elem_of_fmap. split.
  - intros ([i r] & -> & Hin). eauto.
  - intros (i & r & Hin & ->). by exists (i, r).
Qed.

Lemma naive_sub_frame d' d : sub_frame d' d → naive d → naive d'.
Proof.
  intros [Hc Hr] Hn. unfold naive in *. rewrite Forall_forall in *.
  intros c Hcol Hin. rewrite Hc in Hin. specialize (Hn c Hcol Hin).
  destruct (tz_aware (column_values d' c)) eqn:Haw; [|done].
  apply tz_aware_elem in Haw as (t & Ht & Haw).
  apply column_values_elem in Ht as (i & r & Hir & Heq).
  rewrite <- Hn. symmetry. apply tz_aware_elem. exists t. split; [|done].
  apply column_values_elem. exists i, r. split; [by apply Hr|done].
Qed.

Lemma select_sub_frame d keep : sub_frame (select d keep) d.
Proof.
  split; [done|]. unfold select. simpl. intros x Hx.
  apply list_elem_of_fmap in Hx. destruct Hx as ([x' b] & -> & Hx).
  apply list_elem_of_In, List.filter_In in Hx. destruct Hx as [Hx _].
  apply list_elem_of_In in Hx. simpl.
  apply elem_of_zip_l in Hx. done.
Qed.

Lemma getitem_bool_sub_frame d key d' : getitem_bool d key = Ok d' → sub_frame d' d.
Proof.
  unfold getitem_bool. destruct (decide _).
  - intros [= <-]. apply select_sub_frame.
  - destruct (mapM _ _); [|discriminate]. intros [= <-]. apply select_sub_frame.
Qed.

Lemma date_filter_sub_frame d cmp d' : date_filter d cmp = Ok d' → sub_frame d' d.
Proof.
  unfold date_filter. destruct (date_mask d COL_TS cmp); [|discriminate]. simpl.
  destruct (date_mask d COL_ACTIVITY cmp); [|discriminate]. simpl.
  apply getitem_bool_sub_frame.
Qed.

Lemma filter_if_possible_sub_frame d col vals d' :
  filter_if_possible d col vals = Ok d' → sub_frame d' d.
Proof.
  unfold filter_if_possible. destruct vals as [[|v vs]|].
  - intros [= <-]. apply sub_frame_refl.
  - destruct (decide _).
    + destruct (getitem d col); [|discriminate]. simpl. apply getitem_bool_sub_frame.
    + intros [= <-]. apply sub_frame_refl.
  - intros [= <-]. apply sub_frame_refl.
Qed.

Lemma date_step_sub_frame cmp o d d' : date_step cmp o d = Ok d' → sub_frame d' d.
Proof.
  destruct o; simpl; [apply date_filter_sub_frame|].
  intros [= <-]. apply sub_frame_refl.
Qed.

(** ** The steps of [apply_filters] *)

Lemma apply_filters_steps df crit :
  apply_filters df crit
  = parse_dates df ≫= λ d,
    date_step ge_instant (start_date crit) d ≫= λ d,
    date_step le_instant (end_date crit) d ≫= λ d,
    filter_if_possible d COL_CAMPAIGN (campaigns crit) ≫= λ d,
    filter_if_possible d COL_TITLE (titles crit) ≫= λ d,
    filter_if_possible d COL_SECTOR (sectors crit) ≫= λ d,
    filter_if_possible d COL_SIZE (sizes crit) ≫= λ d,
    filter_if_possible d COL_LOCATION (locations crit).
Proof.
  unfold apply_filters, date_step. fold (parse_dates df).
  destruct (parse_dates df) as [d0|]; [|done]. simpl.
  destruct (match start_date crit with Some _ => _ | None => _ end) as [d1|]; [|done].
  simpl.
  destruct (match end_date crit with Some _ => _ | None => _ end) as [d2|]; [|done].
  simpl.
  destruct (filter_if_possible d2 _ _) as [d3|]; [|done]. simpl.
  destruct (filter_if_possible d3 _ _) as [d4|]; [|done]. simpl.
  destruct (filter_if_possible d4 _ _) as [d5|]; [|done]. simpl.
  destruct (filter_if_possible d5 _ _) as [d6|]; [|done]. simpl.
  by destruct (filter_if_possible d6 _ _).
Qed.

(** When the parsing raises, [apply_filters] raises the same. *)
Lemma apply_filters_parse_error df crit e :
  parse_dates df = Raise e → apply_filters df crit = Raise e.
Proof. intros H. by rewrite apply_filters_steps, H. Qed.

Lemma apply_no_criteria df : apply_filters df no_criteria = parse_dates df.
Proof. rewrite apply_filters_steps. simpl. by destruct (parse_dates df). Qed.

Lemma apply_only_start d o :
  parsed d → apply_filters d (only_start o) = date_step ge_instant o d.
Proof.
  intros Hp. rewrite apply_filters_steps, (parse_dates_parsed d Hp). simpl.
  by destruct (date_step ge_instant o d).
Qed.

Lemma apply_only_end d o :
  parsed d → apply_filters d (only_end o) = date_step le_instant o d.
Proof.
  intros Hp. rewrite apply_filters_steps, (parse_dates_parsed d Hp). simpl.
  by destruct (date_step le_instant o d).
Qed.

Lemma apply_only_dim d dim v :
  apply_filters d (only_dim dim v)
  = parse_dates d ≫= λ d0, filter_if_possible d0 (dim_column dim) v.
Proof.
  rewrite apply_filters_steps. destruct (parse_dates d) as [d0|]; [|done].
  destruct dim; simpl; by destruct (filter_if_possible d0 _ v).
Qed.

Lemma apply_only_dim_parsed d dim v :
  parsed d → apply_filters d (only_dim dim v) = filter_if_possible d (dim_column dim) v.
Proof. intros Hp. by rewrite apply_only_dim, (parse_dates_parsed d Hp). Qed.

(** ** The date steps on aligned labels *)

Lemma date_mask_rseries d col holds :
  col ∈ columns d ∨ default_index d →
  (col ∈ columns d → tz_aware (column_values d col) = false) →
  date_mask d col (compare_instants holds)
  = Ok (rseries (rows d) (λ r, match instant_in (columns d) r col with
                               | Some t => holds t
                               | None => false
                               end)).
Proof.
  intros Hal Hn. unfold date_mask, instant_in.
  destruct (decide (col ∈ columns d)) as [Hin|Hout].
  - rewrite getitem_in by done. simpl. unfold compare_instants.
    rewrite s_values_rseries. fold (column_values d col). rewrite (Hn Hin). simpl.
    unfold s_and. rewrite !s_map_rseries, logical_op_rseries. f_equal.
    apply rseries_ext. intros r. by destruct (cell_at r col).
  - destruct Hal as [?|Hdef]; [done|]. by rewrite false_series_rseries.
Qed.

Lemma naive_column d c :
  naive d → c ∈ [COL_TS; COL_ACTIVITY] → c ∈ columns d →
  tz_aware (column_values d c) = false.
Proof. unfold naive. rewrite Forall_forall. auto. Qed.

Lemma date_filter_aligned d holds :
  labels_aligned d → naive d →
  date_filter d (compare_instants holds)
  = Ok (mkDF (columns d) (fallback_rows (dated holds (columns d)) (rows d))).
Proof.
  intros Hal Hn. unfold date_filter.
  rewrite !date_mask_rseries; simpl.
  - unfold s_or. rewrite logical_op_rseries, s_map_rseries, s_sum_rseries.
    rewrite getitem_bool_rseries. f_equal. f_equal.
    rewrite (filter_rows_fallback
               (λ r, match instant_in (columns d) r COL_TS with
                     | Some t => holds t | None => false end
                     || match instant_in (columns d) r COL_ACTIVITY with
                        | Some t => holds t | None => false end)).
    apply fallback_rows_ext. intros r. unfold dated. simpl. by rewrite orb_false_r.
  - destruct Hal as [[? ?]|?]; auto.
  - intros Hc. apply naive_column; [done| |done].
    apply (bool_decide_unpack _). by vm_compute.
  - destruct Hal as [[? ?]|?]; auto.
  - intros Hc. apply naive_column; [done| |done].
    apply (bool_decide_unpack _). by vm_compute.
Qed.

(** A date column with a time zone makes the date step raise. *)
Lemma date_mask_aware d col holds :
  col ∈ columns d → tz_aware (column_values d col) = true →
  date_mask d col (compare_instants holds) = Raise TypeError.
Proof.
  intros Hin Haw. unfold date_mask. rewrite decide_True by done.
  rewrite getitem_in by done. simpl. unfold compare_instants.
  rewrite s_values_rseries. fold (column_values d col). by rewrite Haw.
Qed.

Lemma date_mask_raises d col holds e :
  date_mask d col (compare_instants holds) = Raise e → e = TypeError.
Proof.
  unfold date_mask. destruct (decide _); [|discriminate].
  rewrite getitem_in by done. simpl. unfold compare_instants.
  destruct (tz_aware _); simpl; [by intros [= <-]|discriminate].
Qed.

Lemma date_filter_aware d holds :
  ¬ naive d → date_filter d (compare_instants holds) = Raise TypeError.
Proof.
  intros Hn. unfold date_filter.
  destruct (date_mask d COL_TS (compare_instants holds)) as [m1|e] eqn:H1; simpl.
  2:{ by apply date_mask_raises in H1 as ->. }
  destruct (date_mask d COL_ACTIVITY (compare_instants holds)) as [m2|e] eqn:H2; simpl.
  2:{ by apply date_mask_raises in H2 as ->. }
  exfalso. apply Hn. unfold naive.
  apply Forall_cons. split; [|apply Forall_cons; split; [|apply Forall_nil_2]];
    intros Hin.
  - destruct (tz_aware (column_values d COL_TS)) eqn:Haw; [|done].
    by rewrite date_mask_aware in H1.
  - destruct (tz_aware (column_values d COL_ACTIVITY)) eqn:Haw; [|done].
    by rewrite date_mask_aware in H2.
Qed.

Lemma date_filter_naive d holds d' :
  date_filter d (compare_instants holds) = Ok d' → naive d.
Proof.
  intros H. destruct (decide (naive d)) as [|Hn]; [done|].
  by rewrite date_filter_aware in H.
Qed.

(** ** Categorical filters row by row, and filtering twice *)

(** A categorical filter never raises: its mask is computed from the frame
    it selects from. *)
Lemma filter_if_possible_rows d col vals :
  filter_if_possible d col vals
  = Ok (match vals with
        | Some (v :: vs) =>
            if decide (col ∈ columns d)
            then mkDF (columns d) (filter_rows (cat_row col (v :: vs)) (rows d))
            else d
        | _ => d
        end).
Proof.
  unfold filter_if_possible. destruct vals as [[|v vs]|]; try done.
  destruct (decide (col ∈ columns d)); [|done].
  rewrite getitem_in by done. simpl.
  by rewrite !s_map_rseries, getitem_bool_rseries.
Qed.

Lemma date_step_stable cmp holds o d d1 d' :
  (∀ b, cmp b = compare_instants (holds b)) →
  (COL_TS ∈ columns d ∧ COL_ACTIVITY ∈ columns d) ∨ o = None →
  date_step cmp o d = Ok d1 → sub_frame d' d1 → date_step cmp o d' = Ok d'.
Proof.
  intros Hcmp Hal Hd1 Hsub. destruct o as [bound|]; [|done].
  destruct Hal as [Hboth|?]; [|done]. simpl in *. rewrite Hcmp in *.
  pose proof (date_filter_naive _ _ _ Hd1) as Hn.
  pose proof (date_filter_sub_frame _ _ _ Hd1) as Hsub1.
  pose proof (naive_sub_frame _ _ (sub_frame_trans _ _ _ Hsub Hsub1) Hn) as Hn'.
  destruct Hsub as [Hcols Hrows].
  rewrite date_filter_aligned in Hd1 by (done || by left). injection Hd1 as <-.
  simpl in *. rewrite date_filter_aligned by (done || left; by rewrite Hcols).
  rewrite Hcols, (fallback_rows_stable _ (rows d)) by done.
  by rewrite <- Hcols, mkDF_eta.
Qed.

Lemma filter_if_possible_stable d col vals d1 d' :
  filter_if_possible d col vals = Ok d1 → sub_frame d' d1 →
  filter_if_possible d' col vals = Ok d'.
Proof.
  rewrite !filter_if_possible_rows. intros [= <-] [Hcols Hrows]. f_equal.
  destruct vals as [[|v vs]|]; try done.
  destruct (decide (col ∈ columns d)) as [Hin|Hout]; simpl in *.
  - rewrite decide_True by by rewrite Hcols.
    rewrite filter_rows_all; [apply mkDF_eta|].
    intros x Hx. by apply (filter_rows_elem _ (rows d)), Hrows.
  - by rewrite decide_False by by rewrite Hcols.
Qed.

(** Where the masks cannot be misaligned (both date columns exist, or no
    date bound is given), filtering again the frame that [apply_filters]
    returns gives it back. *)
Lemma apply_filters_idempotent_aligned (df : DataFrame) (crit : Criteria) (d : DataFrame) :
  (COL_TS ∈ columns df ∧ COL_ACTIVITY ∈ columns df)
  ∨ (start_date crit = None ∧ end_date crit = None) →
  apply_filters df crit = Ok d → apply_filters d crit = Ok d.
Proof.
  intros Hal. rewrite (apply_filters_steps df crit).
  destruct (parse_dates df) as [d0|] eqn:H0; [|discriminate]. simpl.
  pose proof (parse_dates_is_parsed _ _ H0) as Hp0.
  assert (Hal0 : (COL_TS ∈ columns d0 ∧ COL_ACTIVITY ∈ columns d0)
                 ∨ (start_date crit = None ∧ end_date crit = None)).
  { apply parse_dates_read in H0 as [-> _]. done. }
  clear H0 Hal.
  destruct (date_step ge_instant (start_date crit) d0) as [d1|] eqn:H1; [|discriminate].
  simpl. pose proof (date_step_sub_frame _ _ _ _ H1) as S1.
  assert (Hal1 : (COL_TS ∈ columns d1 ∧ COL_ACTIVITY ∈ columns d1)
                 ∨ end_date crit = None).
  { destruct S1 as [-> _]. destruct Hal0 as [?|[_ ?]]; auto. }
  destruct (date_step le_instant (end_date crit) d1) as [d2|] eqn:H2; [|discriminate].
  simpl. pose proof (date_step_sub_frame _ _ _ _ H2) as S2.
  destruct (filter_if_possible d2 _ _) as [d3|] eqn:H3; [|discriminate]. simpl.
  pose proof (filter_if_possible_sub_frame _ _ _ _ H3) as S3.
  destruct (filter_if_possible d3 _ _) as [d4|] eqn:H4; [|discriminate]. simpl.
  pose proof (filter_if_possible_sub_frame _ _ _ _ H4) as S4.
  destruct (filter_if_possible d4 _ _) as [d5|] eqn:H5; [|discriminate]. simpl.
  pose proof (filter_if_possible_sub_frame _ _ _ _ H5) as S5.
  destruct (filter_if_possible d5 _ _) as [d6|] eqn:H6; [|discriminate]. simpl.
  pose proof (filter_if_possible_sub_frame _ _ _ _ H6) as S6.
  intros H7. pose proof (filter_if_possible_sub_frame _ _ _ _ H7) as S7.
  assert (T6 : sub_frame d d6) by done.
  assert (T5 : sub_frame d d5) by (eapply sub_frame_trans; eassumption).
  assert (T4 : sub_frame d d4) by (eapply sub_frame_trans; eassumption).
  assert (T3 : sub_frame d d3) by (eapply sub_frame_trans; eassumption).
  assert (T2 : sub_frame d d2) by (eapply sub_frame_trans; eassumption).
  assert (T1 : sub_frame d d1) by (eapply sub_frame_trans; eassumption).
  assert (T0 : sub_frame d d0) by (eapply sub_frame_trans; eassumption).
  rewrite (apply_filters_steps d crit).
  rewrite (parse_dates_parsed d) by (by eapply parsed_sub_frame). simpl.
  rewrite (date_step_stable _ (λ b t, bool_decide (b ≤ t)) _ d0 d1 d)
    by (done || destruct Hal0 as [?|[? _]]; auto).
  simpl.
  rewrite (date_step_stable _ (λ b t, bool_decide (t ≤ b)) _ d1 d2 d) by done. simpl.
  rewrite (filter_if_possible_stable d2 _ _ d3 d) by done. simpl.
  rewrite (filter_if_possible_stable d3 _ _ d4 d) by done. simpl.
  rewrite (filter_if_possible_stable d4 _ _ d5 d) by done. simpl.
  rewrite (filter_if_possible_stable d5 _ _ d6 d) by done. simpl.
  by rewrite (filter_if_possible_stable d6 _ _ d d) by (done || apply sub_frame_refl).
Qed.

End FilterLemmas.

(** * Part IV. The claims *)

(** C1: on a non-empty dataset from which the column of the call timestamps
    has been removed, [compute_call_distribution] raises KeyError, where
    [compute_metrics] creates the column and goes on. *)
Theorem distribution_raises_without_timestamps (instant_repr : Z → string) :
  let df := mkDF [COL_TAGS; COL_STATUS; COL_PHASE]
                 [(0, {[ COL_TAGS := Str "Pitch"; COL_STATUS := Str "Email sent" ]})] in
  compute_call_distribution instant_repr df = Raise (KeyError COL_TS) ∧
  ∃ m, compute_metrics instant_repr df = Ok m ∧ calls_total m = 0.
Proof.
  split; [by vm_compute|].
  eexists. split; [apply compute_metrics_rows|]. by vm_compute.
Qed.

(** C2: on every dataset [compute_metrics] returns a result in which every
    rate lies between 0 and 1, a rate whose denominator is zero is 0 (the
    overall rate, whose denominator is floored at 1, is 0 when nobody was
    mailed or called), and every count is an integer between 0 and the
    number of rows. *)
Theorem rates_and_counts_bounded (instant_repr : Z → string) (df : DataFrame) :
  ∃ m, compute_metrics instant_repr df = Ok m ∧
       Forall (λ q, (0 <= q <= 1)%Q) (rates m) ∧
       Forall (λ c, 0 ≤ c ≤ Z.of_nat (df_len df)) (counts m) ∧
       (calls_total m = 0 →
        connection_rate m = 0%Q ∧ rdv_phone_rate m = 0%Q ∧ phone_conv_rate m = 0%Q) ∧
       (calls_connected m = 0 → pitch_rate m = 0%Q) ∧
       (contacts_email m = 0 →
        open_rate m = 0%Q ∧ reply_rate m = 0%Q ∧ email_conv_rate m = 0%Q) ∧
       (contacts_email m = 0 → calls_total m = 0 → overall_conv_rate m = 0%Q).
Proof.
  eexists. split; [apply compute_metrics_rows|]. simpl.
  set (cols := columns df). set (rs := rows df).
  pose proof (count_rows_bounds (rdv_by_phone instant_repr cols) rs) as Hp.
  pose proof (count_rows_bounds (rdv_by_email instant_repr cols) rs) as He.
  pose proof (count_rows_mono _ _ rs (rdv_by_phone_pitched instant_repr cols)) as Hpp.
  pose proof (count_rows_mono _ _ rs (pitched_connected instant_repr cols)) as Hpc.
  pose proof (count_rows_mono _ _ rs (connected_called instant_repr cols)) as Hcc.
  pose proof (count_rows_mono _ _ rs (opened_mailed cols)) as Hom.
  pose proof (count_rows_mono _ _ rs (replied_mailed cols)) as Hrm.
  pose proof (count_rows_mono _ _ rs (rdv_by_email_replied instant_repr cols)) as Her.
  pose proof (count_rows_bounds (opened cols) rs) as Ho.
  pose proof (count_rows_bounds (replied cols) rs) as Hr.
  pose proof (count_rows_bounds (mailed cols) rs) as Hm.
  pose proof (count_rows_bounds (called cols) rs) as Hc.
  pose proof (count_rows_bounds (pitched instant_repr cols) rs) as Hpi.
  pose proof (count_rows_bounds (connected instant_repr cols) rs) as Hco.
  pose proof (count_rows_disjoint _ _ rs
                (λ r H1 H2, rdv_by_email_not_phone instant_repr cols r H2 H1)) as Hdis.
  pose proof (count_rows_overall _ _ (called cols) (mailed cols) rs
                (rdv_by_phone_called instant_repr cols)
                (λ r H, replied_mailed cols r (rdv_by_email_replied instant_repr cols r H))
                (rdv_by_email_not_phone instant_repr cols)) as Hov.
  pose proof (count_rows_bounds
                (λ r, rdv_by_email instant_repr cols r && called cols r) rs) as Hb.
  split; [|split; [|split; [|split; [|split]]]].
  - repeat apply Forall_cons_2; try apply Forall_nil_2;
      try (apply rate_or_zero_unit_interval; lia).
    apply Qdiv_unit_interval; lia.
  - unfold df_len. fold rs.
    repeat apply Forall_cons_2; try apply Forall_nil_2; simpl; lia.
  - intros ->. by rewrite !rate_or_zero_zero.
  - intros ->. by rewrite !rate_or_zero_zero.
  - intros ->. by rewrite !rate_or_zero_zero.
  - intros Hm0 Hc0. rewrite Hm0, Hc0 in *.
    assert (count_rows (rdv_by_phone instant_repr cols) rs = 0) as -> by lia.
    assert (count_rows (rdv_by_email instant_repr cols) rs = 0) as -> by lia.
    assert (count_rows (λ r, rdv_by_email instant_repr cols r && called cols r) rs = 0)
      as -> by lia.
    reflexivity.
Qed.

(** C3, amended: [apply_filters] is the individual filters applied one after
    the other in the order start date, end date, campaign, job title,
    sector, company size, location, each to the output of the previous and
    an exception of one ending the sequence. *)
Theorem filters_compose_in_code_order (read_dates : list cell → result (list (option Z)))
    (aware : Z → bool) (df : DataFrame) (crit : Criteria) :
  apply_filters read_dates aware df crit
  = apply_filters read_dates aware df (only_start (start_date crit)) ≫= λ d,
    apply_filters read_dates aware d (only_end (end_date crit)) ≫= λ d,
    apply_filters read_dates aware d (only_campaigns (campaigns crit)) ≫= λ d,
    apply_filters read_dates aware d (only_titles (titles crit)) ≫= λ d,
    apply_filters read_dates aware d (only_sectors (sectors crit)) ≫= λ d,
    apply_filters read_dates aware d (only_sizes (sizes crit)) ≫= λ d,
    apply_filters read_dates aware d (only_locations (locations crit)).
Proof.
  rewrite (apply_filters_steps _ _ df crit).
  rewrite (apply_filters_steps _ _ df (only_start _)).
  destruct (parse_dates read_dates df) as [d0|e] eqn:H0; [|done]. simpl.
  pose proof (parse_dates_is_parsed _ _ _ H0) as Hp0.
  destruct (date_step (ge_instant aware) (start_date crit) d0) as [d1|e] eqn:H1;
    [|done]. simpl.
  assert (Hp1 : parsed d1)
    by (eapply parsed_sub_frame; [by eapply date_step_sub_frame|done]).
  rewrite apply_only_end by done.
  destruct (date_step (le_instant aware) (end_date crit) d1) as [d2|e] eqn:H2; [|done].
  simpl.
  assert (Hp2 : parsed d2)
    by (eapply parsed_sub_frame; [by eapply date_step_sub_frame|done]).
  rewrite (apply_only_dim_parsed _ _ d2 Campaign) by done. simpl.
  destruct (filter_if_possible d2 _ _) as [d3|e] eqn:H3; [|done]. simpl.
  assert (Hp3 : parsed d3)
    by (eapply parsed_sub_frame; [by eapply filter_if_possible_sub_frame|done]).
  rewrite (apply_only_dim_parsed _ _ d3 Title) by done. simpl.
  destruct (filter_if_possible d3 _ _) as [d4|e] eqn:H4; [|done]. simpl.
  assert (Hp4 : parsed d4)
    by (eapply parsed_sub_frame; [by eapply filter_if_possible_sub_frame|done]).
  rewrite (apply_only_dim_parsed _ _ d4 Sector) by done. simpl.
  destruct (filter_if_possible d4 _ _) as [d5|e] eqn:H5; [|done]. simpl.
  assert (Hp5 : parsed d5)
    by (eapply parsed_sub_frame; [by eapply filter_if_possible_sub_frame|done]).
  rewrite (apply_only_dim_parsed _ _ d5 Size) by done. simpl.
  destruct (filter_if_possible d5 _ _) as [d6|e] eqn:H6; [|done]. simpl.
  assert (Hp6 : parsed d6)
    by (eapply parsed_sub_frame; [by eapply filter_if_possible_sub_frame|done]).
  by rewrite (apply_only_dim_parsed _ _ d6 Location) by done.
Qed.

(** C3 fails as stated: with campaign "A" and a start bound of 1 February
    2024, [apply_filters] first keeps the one row dated after the bound, of
    campaign "B", and returns no row; campaign first and date second keeps
    the row of campaign "A", which the date step then lets through because
    it matches nothing. *)
Lemma spec_order_differs :
  let crit := mkCriteria (Some ["A"]) None None None None (Some 20240201) None in
  apply_filters Sample.read_iso Sample.no_zone Sample.two_rows_by_campaign crit
  = Ok (mkDF [COL_CAMPAIGN; COL_TS; COL_ACTIVITY] []) ∧
  filters_in_spec_order Sample.read_iso Sample.no_zone Sample.two_rows_by_campaign crit
  = Ok (mkDF [COL_CAMPAIGN; COL_TS; COL_ACTIVITY]
             [(0, {[ COL_CAMPAIGN := Str "A"; COL_TS := Ts 20240105;
                     COL_ACTIVITY := NaT ]})]).
Proof. split; by vm_compute. Qed.




(** C5: rdv_email is the number of rows whose lifecycle phase is exactly
    "RDV - Bon contact", whose e-mail status is exactly "Email replied" and
    which are not telephone meetings (called and tagged Meeting); a row with
    the tag Meeting and no call timestamp that meets the two conditions adds
    one to rdv_email. *)
Theorem rdv_email_counts (instant_repr : Z → string) (df : DataFrame) :
  ∃ m, compute_metrics instant_repr df = Ok m ∧
       rdv_email m
       = Z.of_nat (length (filter (λ ir, email_meeting instant_repr (columns df) ir.2)
                                  (rows df))) ∧
       ∀ i r,
         "Meeting" ∈ tags_of instant_repr (columns df) r →
         notna (field (columns df) r COL_TS) = false →
         field (columns df) r COL_PHASE = Str "RDV - Bon contact" →
         field (columns df) r COL_STATUS = Str "Email replied" →
         ∃ m', compute_metrics instant_repr (mkDF (columns df) (rows df ++ [(i, r)]))
               = Ok m' ∧
               rdv_email m' = rdv_email m + 1.
Proof.
  eexists. split; [apply compute_metrics_rows|]. split.
  - simpl. apply count_rows_filter, rdv_by_email_iff.
  - intros i r Htag Hts Hph Hst.
    eexists. split; [apply compute_metrics_rows|]. simpl.
    rewrite count_rows_app, count_rows_cons, count_rows_nil.
    assert (rdv_by_email instant_repr (columns df) r = true) as ->; [|lia].
    apply rdv_by_email_iff. split; [done|]. split; [done|].
    intros [Hcalled _]. congruence.
Qed.

(** C6: the telephone funnel narrows, rdv_phone <= calls_pitched <=
    calls_connected <= calls_total on every dataset, the vocabularies being
    nested (RDV within PITCHED within CONNECTED, strictly) and every count
    being taken among the rows with a call timestamp. *)
Theorem funnel_chain (instant_repr : Z → string) (df : DataFrame) :
  CALL_TAGS_RDV ⊂ CALL_TAGS_PITCHED ∧ CALL_TAGS_PITCHED ⊂ CALL_TAGS_CONNECTED ∧
  ∃ m, compute_metrics instant_repr df = Ok m ∧
       rdv_phone m ≤ calls_pitched m ∧
       calls_pitched m ≤ calls_connected m ∧
       calls_connected m ≤ calls_total m.
Proof.
  split; [|split].
  - split; [exact rdv_subset_pitched|].
    intros H. specialize (H "Pitch"). unfold CALL_TAGS_RDV, CALL_TAGS_PITCHED in H.
    rewrite elem_of_union, !elem_of_singleton in H.
    assert (Hne : "Pitch" = "Meeting") by (apply H; by right). discriminate Hne.
  - split; [exact pitched_subset_connected|].
    intros H. specialize (H "Standard").
    unfold CALL_TAGS_PITCHED, CALL_TAGS_CONNECTED in H.
    rewrite !elem_of_union, !elem_of_singleton in H.
    assert (Hne : "Standard" = "Meeting" ∨ "Standard" = "Pitch") by (apply H; by right).
    destruct Hne as [Hne|Hne]; discriminate Hne.
  - eexists. split; [apply compute_metrics_rows|]. simpl. split; [|split].
    + apply count_rows_mono, rdv_by_phone_pitched.
    + apply count_rows_mono, pitched_connected.
    + apply count_rows_mono, connected_called.
Qed.

(** C7: on a frame without date columns, filtering by campaign and start
    date returns the row labelled 1; filtering that result again with the
    same criteria raises, the all-False mask built from its length bearing
    the label 0. *)
Theorem second_application_raises (read_dates : list cell → result (list (option Z)))
    (aware : Z → bool) :
  let crit := mkCriteria (Some ["B"]) None None None None (Some 20240101) None in
  let once := mkDF [COL_CAMPAIGN] [(1, {[ COL_CAMPAIGN := Str "B" ]})] in
  apply_filters read_dates aware Sample.campaigns_only crit = Ok once ∧
  apply_filters read_dates aware once crit = Raise IndexingError.
Proof. split; by vm_compute. Qed.




(** C9: on a dataset of zero rows every count is 0 and every rate is 0, and
    the distribution is empty. *)
Theorem empty_dataset (instant_repr : Z → string) (cols : list string) :
  compute_metrics instant_repr (mkDF cols []) = Ok zero_metrics ∧
  compute_call_distribution instant_repr (mkDF cols []) = Ok [].
Proof.
  split; [|done].
  by rewrite compute_metrics_rows.
Qed.

(** C10: there is a dataset with a called row whose distribution has a rate
    above 1: a tag is counted on the rows without a call timestamp too, and
    the denominator counts the called rows only. *)
Theorem distribution_rate_above_one (instant_repr : Z → string) :
  ∃ df rs d,
    Exists (λ ir, notna (field (columns df) ir.2 COL_TS) = true) (rows df) ∧
    compute_call_distribution instant_repr df = Ok rs ∧
    d ∈ rs ∧ (1 < rate d)%Q.
Proof.
  exists (mkDF [COL_TS; COL_TAGS]
            [(0, {[ COL_TS := Str "2024-03-04 10:15:00"; COL_TAGS := Str "Pitch" ]});
             (1, {[ COL_TAGS := Str "Pitch" ]})]).
  exists [ {| tag := "Pitch"; count := 2; rate := (2 # 1) |} ].
  exists {| tag := "Pitch"; count := 2; rate := (2 # 1) |}.
  split; [apply Exists_cons_hd; by vm_compute|].
  split; [by vm_compute|].
  split; [apply list_elem_of_singleton; done|]. by vm_compute.
Qed.

(** * Part V. Worked examples *)

(** An export without the column of the call timestamps, filtered on a date
    range: the start step keeps the rows labelled 1 and 2; in the end step
    the all-False mask bears the labels 0 and 1, the row labelled 2 has no
    partner in it and is dropped though its date is in range. *)
Example end_bound_drops_row_in_range :
  apply_filters Sample.read_iso Sample.no_zone Sample.activity_only
                (mkCriteria None None None None None (Some 20240201) (Some 20241231))
  = Ok (mkDF [COL_ACTIVITY] [(1, {[ COL_ACTIVITY := Ts 20240301 ]})]).
Proof. by vm_compute. Qed.

(** The same slip on a second application: rows 1 and 2 after the first,
    row 1 alone after the second. *)
Example second_application_drops_row :
  apply_filters Sample.read_iso Sample.no_zone Sample.activity_only (only_start (Some 20240201))
  = Ok (mkDF [COL_ACTIVITY] [(1, {[ COL_ACTIVITY := Ts 20240301 ]});
                             (2, {[ COL_ACTIVITY := Ts 20240302 ]})]) ∧
  apply_filters Sample.read_iso Sample.no_zone
                (mkDF [COL_ACTIVITY] [(1, {[ COL_ACTIVITY := Ts 20240301 ]});
                                      (2, {[ COL_ACTIVITY := Ts 20240302 ]})])
                (only_start (Some 20240201))
  = Ok (mkDF [COL_ACTIVITY] [(1, {[ COL_ACTIVITY := Ts 20240301 ]})]).
Proof. split; by vm_compute. Qed.

(** Two called rows and a row with a tag and no call: the funnel counts the
    called rows, the distribution counts the tag of the third row too. *)
Example three_rows_metrics :
  let df := mkDF [COL_TS; COL_TAGS]
                 [(0, {[ COL_TS := Str "2024-03-04"; COL_TAGS := Str "Meeting, Pitch" ]});
                  (1, {[ COL_TS := Str "2024-03-05"; COL_TAGS := Str "Standard" ]});
                  (2, {[ COL_TS := NaN; COL_TAGS := Str "Pitch" ]})] in
  (calls_total <$> compute_metrics (λ _, "") df) = Ok 2 ∧
  (calls_connected <$> compute_metrics (λ _, "") df) = Ok 2 ∧
  (calls_pitched <$> compute_metrics (λ _, "") df) = Ok 1 ∧
  (rdv_phone <$> compute_metrics (λ _, "") df) = Ok 1 ∧
  compute_call_distribution (λ _, "") df
  = Ok [ {| tag := "Pitch"; count := 2; rate := 2 # 2 |};
         {| tag := "Meeting"; count := 1; rate := 1 # 2 |};
         {| tag := "Standard"; count := 1; rate := 1 # 2 |} ].
Proof. repeat split; by vm_compute. Qed.

(** An opened e-mail, and a replied e-mail in the phase "RDV - Bon contact"
    without a call. *)
Example two_rows_email :
  let df := mkDF [COL_STATUS; COL_PHASE]
                 [(0, {[ COL_STATUS := Str "Email opened"; COL_PHASE := NaN ]});
                  (1, {[ COL_STATUS := Str "Email replied";
                         COL_PHASE := Str "RDV - Bon contact" ]})] in
  (contacts_email <$> compute_metrics (λ _, "") df) = Ok 2 ∧
  (contacts_opened <$> compute_metrics (λ _, "") df) = Ok 1 ∧
  (contacts_replied <$> compute_metrics (λ _, "") df) = Ok 1 ∧
  (rdv_email <$> compute_metrics (λ _, "") df) = Ok 1 ∧
  (rdv_total <$> compute_metrics (λ _, "") df) = Ok 1.
Proof. repeat split; by vm_compute. Qed.

(** The parsing of [apply_filters] shows in the metrics: a call timestamp
    that is no date counts as a call before filtering and not after. *)
Example unparseable_timestamp_counts_before_filtering :
  (calls_total <$> compute_metrics (λ _, "") Sample.raw_timestamps) = Ok 2 ∧
  (calls_total <$> (apply_filters Sample.read_iso Sample.no_zone Sample.raw_timestamps no_criteria
                    ≫= compute_metrics (λ _, ""))) = Ok 1.
Proof. split; by vm_compute. Qed.

Example split_tags_delimiters :
  _split_tags (λ _, "") (Str " a ,;|b b|,  ,c;") = ["a"; "b b"; "c"] ∧
  _split_tags (λ _, "") NaN = [] ∧
  _split_tags (λ _, "") (Str "") = [].
Proof. repeat split; by vm_compute. Qed.

(** * Part VI. Further properties *)

(** ** [_split_tags] *)

Lemma strip_front_unfold sp2 sp3 s :
  strip_front sp2 sp3 s
  = match space_ahead sp2 sp3 s with
    | Some s' => strip_front sp2 sp3 s'
    | None => s
    end.
Proof.
  destruct s as [|a [|b [|c s]]]; simpl; try done.
  - by destruct (is_space a).
  - destruct (is_space a); [done|]. by destruct (sp2 a b).
  - destruct (is_space a); [done|]. destruct (sp2 a b); [done|]. by destruct (sp3 a b c).
Qed.

Lemma space_ahead_suffix sp2 sp3 s s' :
  space_ahead sp2 sp3 s = Some s' → ∃ pre, pre ≠ [] ∧ s = (pre ++ s')%list.
Proof.
  destruct s as [|a s1]; simpl; [done|].
  destruct (is_space a); [intros [= <-]; by exists [a]|].
  destruct s1 as [|b s2]; [done|].
  destruct (sp2 a b); [intros [= <-]; by exists [a; b]|].
  destruct s2 as [|c s3]; [done|].
  destruct (sp3 a b c); [intros [= <-]; by exists [a; b; c]|done].
Qed.

(** White space that begins a text begins every text that goes on
    further. *)
Lemma space_ahead_app sp2 sp3 l x :
  space_ahead sp2 sp3 (l ++ x) = None → space_ahead sp2 sp3 l = None.
Proof.
  destruct l as [|a [|b [|c l]]]; simpl; try done.
  - by destruct (is_space a).
  - destruct (is_space a); [done|]. by destruct (sp2 a b).
  - destruct (is_space a); [done|]. destruct (sp2 a b); [done|].
    by destruct (sp3 a b c).
Qed.

Lemma strip_front_spec sp2 sp3 n s :
  (length s ≤ n)%nat →
  space_ahead sp2 sp3 (strip_front sp2 sp3 s) = None ∧
  ∃ pre, s = (pre ++ strip_front sp2 sp3 s)%list.
Proof.
  revert s. induction n as [|n IH]; intros s Hn.
  - destruct s; [|simpl in Hn; lia]. split; [done|by exists []].
  - rewrite strip_front_unfold.
    destruct (space_ahead sp2 sp3 s) as [s'|] eqn:Hs; [|split; [done|by exists []]].
    apply space_ahead_suffix in Hs as (pre & Hpre & ->).
    destruct (IH s') as [Hnone (pre' & Hpre')].
    { rewrite length_app in Hn. destruct pre; [done|]. simpl in Hn. lia. }
    split; [done|]. exists (pre ++ pre')%list. rewrite <- app_assoc. by f_equal.
Qed.

Lemma strip_front_clear sp2 sp3 s :
  space_ahead sp2 sp3 (strip_front sp2 sp3 s) = None.
Proof. by apply (strip_front_spec sp2 sp3 (length s) s). Qed.

Lemma strip_front_suffix sp2 sp3 s : ∃ pre, s = (pre ++ strip_front sp2 sp3 s)%list.
Proof. by apply (strip_front_spec sp2 sp3 (length s) s). Qed.

Lemma strip_front_fixed sp2 sp3 s :
  space_ahead sp2 sp3 s = None → strip_front sp2 sp3 s = s.
Proof. intros H. by rewrite strip_front_unfold, H. Qed.

Lemma strip_eq s : strip s = string_of_list_ascii (strip_chars (list_ascii_of_string s)).
Proof. done. Qed.

Lemma strip_chars_prefix l : ∃ post, lstrip l = (strip_chars l ++ post)%list.
Proof.
  unfold strip_chars, rstrip_rev.
  destruct (strip_front_suffix (λ a b, is_space2 b a) (λ a b c, is_space3 c b a)
              (rev (lstrip l))) as [pre Hpre].
  exists (rev pre). rewrite <- rev_app_distr, <- Hpre. by rewrite rev_involutive.
Qed.

Lemma strip_chars_no_lead l : space_ahead is_space2 is_space3 (strip_chars l) = None.
Proof.
  destruct (strip_chars_prefix l) as [post Hpost].
  apply (space_ahead_app _ _ _ post). rewrite <- Hpost. apply strip_front_clear.
Qed.

Lemma strip_chars_no_trail l :
  space_ahead (λ a b, is_space2 b a) (λ a b c, is_space3 c b a) (rev (strip_chars l))
  = None.
Proof. unfold strip_chars. rewrite rev_involutive. apply strip_front_clear. Qed.

Lemma strip_chars_idem l : strip_chars (strip_chars l) = strip_chars l.
Proof.
  unfold strip_chars at 1. unfold lstrip, rstrip_rev.
  rewrite (strip_front_fixed _ _ (strip_chars l)) by apply strip_chars_no_lead.
  rewrite strip_front_fixed by apply strip_chars_no_trail.
  apply rev_involutive.
Qed.

Lemma strip_idem s : strip (strip s) = strip s.
Proof.
  rewrite !strip_eq, list_ascii_of_string_of_list_ascii. by rewrite strip_chars_idem.
Qed.

Lemma strip_front_subset sp2 sp3 l a : a ∈ strip_front sp2 sp3 l → a ∈ l.
Proof.
  destruct (strip_front_suffix sp2 sp3 l) as [pre Hpre]. intros Ha.
  rewrite Hpre. apply elem_of_app. by right.
Qed.

Lemma strip_chars_subset l a : a ∈ strip_chars l → a ∈ l.
Proof.
  unfold strip_chars. intros Ha.
  apply list_elem_of_In, in_rev, list_elem_of_In in Ha.
  apply strip_front_subset in Ha.
  apply list_elem_of_In, in_rev, list_elem_of_In in Ha.
  by apply strip_front_subset in Ha.
Qed.

(** The pieces of [re.split] hold no delimiter. *)
Lemma re_split_aux_no_delim in_run cur s :
  Forall (λ a, is_delim a = false) cur →
  Forall (Forall (λ a, is_delim a = false)) (re_split_aux in_run cur s).
Proof.
  revert in_run cur. induction s as [|a s IH]; intros in_run cur Hcur; simpl.
  - apply Forall_cons_2; [|apply Forall_nil_2].
    apply Forall_forall. intros x Hx. apply list_elem_of_In, in_rev, list_elem_of_In in Hx.
    by apply (proj1 (Forall_forall _ _) Hcur).
  - destruct (is_delim a) eqn:Ha.
    + destruct in_run; [by apply IH|].
      apply Forall_cons_2; [|apply IH; apply Forall_nil_2].
      apply Forall_forall. intros x Hx.
      apply list_elem_of_In, in_rev, list_elem_of_In in Hx.
      by apply (proj1 (Forall_forall _ _) Hcur).
    + apply IH. by apply Forall_cons_2.
Qed.

Lemma split_tags_pieces instant_repr c t :
  t ∈ _split_tags instant_repr c →
  ∃ p, p ∈ re_split (py_str instant_repr c) ∧ t = strip p ∧ strip p ≠ "".
Proof.
  unfold _split_tags. destruct c; cbv beta iota zeta;
    try (intros Ht; by apply elem_of_nil in Ht);
    intros Ht; apply list_elem_of_omap in Ht; destruct Ht as (p & Hp & Ht);
    exists p; (split; [done|]);
    (destruct (decide (strip p = "")); [done|]); injection Ht as <-; done.
Qed.

Lemma split_tags_all_clean instant_repr c :
  Forall clean_token (_split_tags instant_repr c).
Proof.
  apply Forall_forall. intros t Ht.
  apply split_tags_pieces in Ht. destruct Ht as (p & Hp & -> & Hne).
  split; [done|]. split; [apply strip_idem|].
  unfold re_split in Hp. apply list_elem_of_fmap in Hp. destruct Hp as (l & -> & Hl).
  pose proof (re_split_aux_no_delim false [] (list_ascii_of_string (py_str instant_repr c))
                (Forall_nil_2 _)) as Hall.
  pose proof (proj1 (Forall_forall _ _) Hall l Hl) as Hl'.
  rewrite strip_eq, !list_ascii_of_string_of_list_ascii.
  apply Forall_forall. intros a Ha. apply strip_chars_subset in Ha.
  by apply (proj1 (Forall_forall _ _) Hl').
Qed.

(** X1: every token [_split_tags] returns is non-empty, holds none of the
    delimiters [;], [,] and [|], and has no white space at either end, the
    white space of Unicode included: [strip] leaves it as it is. *)
Theorem split_tags_tokens_clean (instant_repr : Z → string) (c : cell) :
  Forall clean_token (_split_tags instant_repr c).
Proof. apply split_tags_all_clean. Qed.

Lemma list_ascii_of_string_app s1 s2 :
  list_ascii_of_string (s1 ++ s2)
  = (list_ascii_of_string s1 ++ list_ascii_of_string s2)%list.
Proof. induction s1 as [|a s1 IH]; simpl; [done|]. by rewrite IH. Qed.

Lemma re_split_aux_token cur t rest :
  Forall (λ a, is_delim a = false) t →
  re_split_aux false cur (t ++ rest)%list = re_split_aux false (rev t ++ cur)%list rest.
Proof.
  revert cur. induction t as [|a t IH]; intros cur Ht; [done|].
  apply Forall_cons_1 in Ht. destruct Ht as [Ha Ht].
  simpl. rewrite Ha, IH by done. by rewrite <- app_assoc.
Qed.

Lemma re_split_aux_plain cur s :
  Forall (λ a, is_delim a = false) s →
  re_split_aux false cur s = [(rev cur ++ s)%list].
Proof.
  intros Hs. rewrite <- (app_nil_r s) at 1.
  rewrite re_split_aux_token by done. simpl.
  by rewrite rev_app_distr, rev_involutive.
Qed.

Lemma split_tags_text instant_repr s :
  _split_tags instant_repr (Str s)
  = omap (λ p, if decide (strip p = "") then None else Some (strip p)) (re_split s).
Proof. done. Qed.



Lemma strip_after_space u : strip (String " " u) = strip u.
Proof. done. Qed.

(** The pieces of tokens joined by a comma and a blank. *)
Lemma re_split_aux_joined cur t ts :
  Forall clean_token (t :: ts) →
  re_split_aux false cur (list_ascii_of_string (String.concat ", " (t :: ts)))
  = (rev cur ++ list_ascii_of_string t)%list
    :: map (λ u, list_ascii_of_string (String " " u)) ts.
Proof.
  revert cur t. induction ts as [|u ts IH]; intros cur t Hall.
  - simpl. apply Forall_cons_1 in Hall. destruct Hall as [(_ & _ & Ht) _].
    by apply re_split_aux_plain.
  - apply Forall_cons_1 in Hall. destruct Hall as [(_ & _ & Ht) Hall].
    change (String.concat ", " (t :: u :: ts))
      with (t ++ ", " ++ String.concat ", " (u :: ts)).
    rewrite list_ascii_of_string_app, re_split_aux_token by done.
    change (list_ascii_of_string (", " ++ String.concat ", " (u :: ts)))
      with (","%char :: " "%char :: list_ascii_of_string (String.concat ", " (u :: ts))).
    change (re_split_aux false (rev (list_ascii_of_string t) ++ cur)%list
              (","%char :: " "%char :: list_ascii_of_string (String.concat ", " (u :: ts))))
      with (rev (rev (list_ascii_of_string t) ++ cur)%list
            :: re_split_aux false [" "%char]
                 (list_ascii_of_string (String.concat ", " (u :: ts)))).
    rewrite IH by done. by rewrite rev_app_distr, rev_involutive.
Qed.

Lemma split_tags_joined instant_repr ts :
  Forall clean_token ts →
  _split_tags instant_repr (Str (String.concat ", " ts)) = ts.
Proof.
  intros Hall. rewrite split_tags_text. destruct ts as [|t ts]; [done|].
  unfold re_split. rewrite (re_split_aux_joined [] t ts Hall). simpl.
  rewrite string_of_list_ascii_of_string.
  apply Forall_cons_1 in Hall. destruct Hall as [(Hne & Hst & _) Hall].
  rewrite Hst, decide_False by done. f_equal.
  induction ts as [|u ts IH]; [done|].
  apply Forall_cons_1 in Hall. destruct Hall as [(Hne' & Hst' & _) Hall].
  simpl. rewrite string_of_list_ascii_of_string, strip_after_space.
  rewrite Hst', decide_False by done. f_equal. by apply IH.
Qed.

(** X3: joining the tokens of a cell with a comma and a blank and splitting
    the text again gives the same tokens. *)
Theorem split_tags_join_round_trip (instant_repr : Z → string) (c : cell) :
  _split_tags instant_repr (Str (String.concat ", " (_split_tags instant_repr c)))
  = _split_tags instant_repr c.
Proof. apply split_tags_joined, split_tags_all_clean. Qed.

(** The no-break space (U+00A0, the bytes C2 A0) and the em space (U+2003,
    the bytes E2 80 83) are white space for [str.strip]. *)
Example split_tags_unicode_space :
  let nbsp := String (ascii_of_nat 194) (String (ascii_of_nat 160) "") in
  let emsp := String (ascii_of_nat 226) (String (ascii_of_nat 128)
                (String (ascii_of_nat 131) "")) in
  _split_tags (λ _, "") (Str nbsp) = [] ∧
  _split_tags (λ _, "") (Str ("Meeting" ++ nbsp)) = ["Meeting"] ∧
  _split_tags (λ _, "") (Str (emsp ++ "Pitch" ++ nbsp ++ "," ++ nbsp ++ "Sans Suite"))
  = ["Pitch"; "Sans Suite"].
Proof. repeat split; by vm_compute. Qed.

(** ** [compute_call_distribution] *)

Lemma string_compare_trans s1 s2 s3 :
  String.compare s1 s2 ≠ Gt → String.compare s2 s3 ≠ Gt → String.compare s1 s3 ≠ Gt.
Proof.
  revert s2 s3. induction s1 as [|a1 s1 IH]; intros [|a2 s2] [|a3 s3]; simpl; try done.
  unfold Ascii.compare.
  destruct (N.compare_spec (N_of_ascii a1) (N_of_ascii a2)) as [H12|H12|H12];
    destruct (N.compare_spec (N_of_ascii a2) (N_of_ascii a3)) as [H23|H23|H23];
    try done; intros Hc1 Hc2;
    destruct (N.compare_spec (N_of_ascii a1) (N_of_ascii a3)) as [H13|H13|H13];
    try done; try (exfalso; lia).
  by apply (IH s2 s3).
Qed.

Lemma string_leb_trans s1 s2 s3 :
  String.leb s1 s2 = true → String.leb s2 s3 = true → String.leb s1 s3 = true.
Proof.
  unfold String.leb. intros H1 H2.
  pose proof (string_compare_trans s1 s2 s3) as Ht.
  destruct (String.compare s1 s2), (String.compare s2 s3), (String.compare s1 s3);
    try done; exfalso; by apply Ht.
Qed.

#[global] Instance item_le_total : Total item_le.
Proof.
  intros [t1 n1] [t2 n2]. unfold item_le. simpl.
  destruct (Z.lt_trichotomy n1 n2) as [?|[->|?]]; [by right; left| |by left; left].
  destruct (String.leb_total t1 t2); [left|right]; by right.
Qed.

#[global] Instance item_le_trans : Transitive item_le.
Proof.
  intros [t1 n1] [t2 n2] [t3 n3]. unfold item_le. simpl.
  intros [H1|[-> H1]] [H2|[-> H2]]; [left; lia|by left|by left|right].
  split; [done|]. by apply (string_leb_trans t1 t2 t3).
Qed.

(** The step of [count_tags], over tags without repetition. *)
Lemma foldl_count_lookup (l : list string) (tc : gmap string Z) t :
  NoDup l →
  foldl (λ tc tag, <[tag := default 0 (tc !! tag) + 1]> tc) tc l !! t
  = if decide (t ∈ l) then Some (default 0 (tc !! t) + 1) else tc !! t.
Proof.
  revert tc. induction l as [|a l IH]; intros tc Hnd; simpl.
  - done.
  - apply NoDup_cons in Hnd. destruct Hnd as [Ha Hnd]. rewrite IH by done.
    destruct (decide (t = a)) as [->|Hne].
    + rewrite (decide_False (P := a ∈ l)) by done.
      rewrite decide_True by (apply elem_of_cons; by left).
      by rewrite lookup_insert_eq.
    + rewrite !lookup_insert_ne by done.
      destruct (decide (t ∈ l)) as [Hin|Hout].
      * by rewrite decide_True by (apply elem_of_cons; by right).
      * rewrite decide_False; [done|].
        intros Hc. apply elem_of_cons in Hc. by destruct Hc.
Qed.

Lemma count_tags_lookup tc tags t :
  count_tags tc tags !! t
  = if decide (t ∈ tags) then Some (default 0 (tc !! t) + 1) else tc !! t.
Proof.
  unfold count_tags. rewrite foldl_count_lookup by apply NoDup_elements.
  destruct (decide (t ∈ tags)) as [Hin|Hout].
  - rewrite decide_True; [done|]. apply elem_of_elements. by apply elem_of_list_to_set.
  - rewrite decide_False; [done|]. intros Hc. apply Hout.
    apply elem_of_elements in Hc. by apply elem_of_list_to_set in Hc.
Qed.

Lemma holders_cons t tags tl :
  holders t (tags :: tl) = (if decide (t ∈ tags) then 1 else 0) + holders t tl.
Proof.
  unfold holders. rewrite filter_cons. destruct (decide (t ∈ tags)); simpl; lia.
Qed.

Lemma holders_bounds t tl : 0 ≤ holders t tl ≤ Z.of_nat (length tl).
Proof.
  unfold holders. split; [lia|]. apply inj_le, length_filter.
Qed.

Lemma holders_Permutation t tl1 tl2 : tl1 ≡ₚ tl2 → holders t tl1 = holders t tl2.
Proof. intros Hp. unfold holders. by rewrite Hp. Qed.

Lemma foldl_count_tags_lookup tl tc t :
  foldl count_tags tc tl !! t
  = match tc !! t with
    | Some n => Some (n + holders t tl)
    | None => if decide (holders t tl = 0) then None else Some (holders t tl)
    end.
Proof.
  revert tc. induction tl as [|tags tl IH]; intros tc.
  - simpl. destruct (tc !! t) as [n|]; [|done]. unfold holders. simpl. f_equal. lia.
  - simpl. rewrite IH, count_tags_lookup, holders_cons.
    pose proof (holders_bounds t tl) as Hb.
    destruct (decide (t ∈ tags)) as [Hin|Hout].
    + destruct (tc !! t) as [n|]; simpl.
      * f_equal. lia.
      * by rewrite decide_False by lia.
    + destruct (tc !! t) as [n|]; [done|].
      destruct (decide (holders t tl = 0)) as [H0|H0].
      * by rewrite decide_True by lia.
      * by rewrite decide_False by lia.
Qed.

Lemma tag_counts_lookup tl t n :
  foldl count_tags ∅ tl !! t = Some n ↔ n = holders t tl ∧ n ≠ 0.
Proof.
  rewrite foldl_count_tags_lookup, lookup_empty.
  destruct (decide (holders t tl = 0)) as [H0|H0]; split.
  - done.
  - intros [-> Hn]. done.
  - intros [= <-]. done.
  - intros [-> _]. done.
Qed.

Lemma distribution_no_call instant_repr df :
  COL_TS ∈ columns df → calls_of df = 0 →
  compute_call_distribution instant_repr df = Ok [].
Proof.
  intros Hts H0. unfold compute_call_distribution.
  destruct (df_empty df); [done|]. cbv zeta.
  rewrite (getitem_in df COL_TS) by done. simpl.
  rewrite s_map_rseries, s_sum_rseries. fold (calls_of df).
  by rewrite decide_True by done.
Qed.

Lemma distribution_eq instant_repr df :
  COL_TS ∈ columns df → COL_TAGS ∈ columns df → calls_of df ≠ 0 →
  compute_call_distribution instant_repr df
  = Ok (map (dist_row (calls_of df))
            (merge_sort item_le
               (map_to_list (foldl count_tags ∅ (tag_lists instant_repr df))))).
Proof.
  intros Hts Htg Hcalls. unfold compute_call_distribution.
  assert (df_empty df = false) as ->.
  { unfold df_empty, calls_of in *. destruct (rows df); [done|].
    destruct (columns df); [|done]. by apply elem_of_nil in Hts. }
  cbv zeta. rewrite (getitem_in df COL_TS) by done. simpl.
  rewrite s_map_rseries, s_sum_rseries. fold (calls_of df).
  rewrite decide_False by done.
  rewrite (getitem_in df COL_TAGS) by done. simpl.
  by rewrite s_map_rseries, s_values_rseries.
Qed.

Lemma holders_pos t tl : holders t tl ≠ 0 ↔ ∃ tags, tags ∈ tl ∧ t ∈ tags.
Proof.
  induction tl as [|tags tl IH].
  - split; [done|]. intros (tags & Hin & _). by apply elem_of_nil in Hin.
  - rewrite holders_cons. pose proof (holders_bounds t tl) as Hb.
    destruct (decide (t ∈ tags)) as [Hin|Hout]; split.
    + intros _. exists tags. split; [apply elem_of_cons; by left|done].
    + intros _. lia.
    + intros Hn. destruct (proj1 IH) as (tags' & Hin' & Ht); [lia|].
      exists tags'. split; [apply elem_of_cons; by right|done].
    + intros (tags' & Hin' & Ht). apply elem_of_cons in Hin'.
      destruct Hin' as [->|Hin']; [done|].
      assert (holders t tl ≠ 0) by (apply IH; eauto). lia.
Qed.

Lemma tag_lists_length instant_repr df :
  length (tag_lists instant_repr df) = df_len df.
Proof. unfold tag_lists, df_len. apply length_map. Qed.

Lemma sorted_items_elem (m : gmap string Z) item :
  item ∈ merge_sort item_le (map_to_list m) ↔ m !! item.1 = Some item.2.
Proof.
  rewrite merge_sort_Permutation. destruct item as [t n]. apply elem_of_map_to_list.
Qed.

(** The table when the two columns exist: [Ok] in every case. *)
Lemma distribution_cases instant_repr df :
  COL_TS ∈ columns df → COL_TAGS ∈ columns df →
  (calls_of df = 0 ∧ compute_call_distribution instant_repr df = Ok []) ∨
  (calls_of df ≠ 0 ∧
   compute_call_distribution instant_repr df
   = Ok (map (dist_row (calls_of df))
             (merge_sort item_le
                (map_to_list (foldl count_tags ∅ (tag_lists instant_repr df)))))).
Proof.
  intros Hts Htg. destruct (decide (calls_of df = 0)) as [H0|H0].
  - left. split; [done|]. by apply distribution_no_call.
  - right. split; [done|]. by apply distribution_eq.
Qed.

(** X4: when the two columns exist the table is returned, and on each of its
    lines the count is the number of rows whose tokens hold the tag, each
    row counted once whether called or not; it is at least 1 and at most the
    number of rows, and the rate is the count over the number of called
    rows. *)
Theorem distribution_counts (instant_repr : Z → string) (df : DataFrame) :
  COL_TS ∈ columns df → COL_TAGS ∈ columns df →
  ∃ rs, compute_call_distribution instant_repr df = Ok rs ∧
        Forall (λ d, count d = holders (tag d) (tag_lists instant_repr df) ∧
                     1 ≤ count d ≤ Z.of_nat (df_len df) ∧
                     rate d = (inject_Z (count d) / inject_Z (calls_of df))%Q) rs.
Proof.
  intros Hts Htg.
  destruct (distribution_cases instant_repr df Hts Htg) as [[_ ->]|[_ ->]].
  - exists []. split; [done|]. apply Forall_nil_2.
  - eexists. split; [done|]. apply Forall_forall. intros d Hd.
    rewrite map_fmap in Hd. apply list_elem_of_fmap in Hd.
    destruct Hd as (item & -> & Hitem). apply sorted_items_elem in Hitem.
    apply tag_counts_lookup in Hitem. destruct Hitem as [Hn Hne]. simpl.
    pose proof (holders_bounds item.1 (tag_lists instant_repr df)) as Hb.
    rewrite tag_lists_length in Hb. split; [done|]. split; [lia|done].
Qed.

(** X5: when a row at least was called, the tags of the table are the tokens
    of the rows, those of the rows without a call included. *)
Theorem distribution_tags_complete (instant_repr : Z → string) (df : DataFrame) :
  COL_TS ∈ columns df → COL_TAGS ∈ columns df → calls_of df ≠ 0 →
  ∃ rs, compute_call_distribution instant_repr df = Ok rs ∧
        ∀ t, t ∈ map tag rs ↔ ∃ ir, ir ∈ rows df ∧ t ∈ row_tags instant_repr ir.2.
Proof.
  intros Hts Htg Hcalls. rewrite distribution_eq by done.
  eexists. split; [done|]. intros t.
  rewrite map_map. simpl. rewrite map_fmap.
  assert (Hholders : holders t (tag_lists instant_repr df) ≠ 0
                     ↔ ∃ ir, ir ∈ rows df ∧ t ∈ row_tags instant_repr ir.2).
  { rewrite holders_pos. unfold tag_lists. rewrite map_fmap. split.
    - intros (tags & Hin & Ht). apply list_elem_of_fmap in Hin.
      destruct Hin as (ir & -> & Hir). eauto.
    - intros (ir & Hir & Ht). exists (row_tags instant_repr ir.2).
      split; [|done]. apply list_elem_of_fmap. eauto. }
  rewrite <- Hholders. split.
  - intros Ht. apply list_elem_of_fmap in Ht. destruct Ht as (item & -> & Hitem).
    apply sorted_items_elem, tag_counts_lookup in Hitem.
    destruct Hitem as [Hn Hne]. by rewrite <- Hn.
  - intros Hne. apply list_elem_of_fmap.
    exists (t, holders t (tag_lists instant_repr df)). split; [done|].
    apply sorted_items_elem. simpl. by apply tag_counts_lookup.
Qed.

(** X6: the table is ordered by count, the larger first, and by tag among
    equal counts; no tag has two lines. *)
Theorem distribution_sorted (instant_repr : Z → string) (df : DataFrame) :
  COL_TS ∈ columns df → COL_TAGS ∈ columns df →
  ∃ rs, compute_call_distribution instant_repr df = Ok rs ∧
        StronglySorted dist_le rs ∧ NoDup (map tag rs).
Proof.
  intros Hts Htg.
  destruct (distribution_cases instant_repr df Hts Htg) as [[_ ->]|[_ ->]].
  - exists []. split; [done|]. split; [constructor|apply NoDup_nil_2].
  - eexists. split; [done|]. split.
    + rewrite map_fmap. eapply StronglySorted_fmap; [|apply StronglySorted_merge_sort; apply _].
      intros [t1 n1] [t2 n2] Hle. exact Hle.
    + rewrite map_map. simpl. rewrite map_fmap.
      rewrite merge_sort_Permutation. apply NoDup_fst_map_to_list.
Qed.

(** X7: when no row was called the table is empty, whatever the tags of the
    rows, and the column of the tags is not read. *)
Theorem distribution_empty_without_call (instant_repr : Z → string) (df : DataFrame) :
  COL_TS ∈ columns df → calls_of df = 0 →
  compute_call_distribution instant_repr df = Ok [].
Proof. apply distribution_no_call. Qed.

Lemma tagged_calls_columns :
  COL_TS ∈ columns Cases.tagged_calls ∧ COL_TAGS ∈ columns Cases.tagged_calls.
Proof. split; apply (bool_decide_unpack _); by vm_compute. Qed.

Lemma distribution_counts_witness :
  ∃ rs, compute_call_distribution (λ _, "") Cases.tagged_calls = Ok rs ∧
        Forall (λ d, count d = holders (tag d) (tag_lists (λ _, "") Cases.tagged_calls) ∧
                     1 ≤ count d ≤ Z.of_nat (df_len Cases.tagged_calls) ∧
                     rate d = (inject_Z (count d)
                               / inject_Z (calls_of Cases.tagged_calls))%Q) rs.
Proof.
  exact (distribution_counts (λ _, "") Cases.tagged_calls
           (proj1 tagged_calls_columns) (proj2 tagged_calls_columns)).
Defined.

Lemma distribution_tags_complete_witness :
  calls_of Cases.tagged_calls ≠ 0 ∧
  ∃ rs, compute_call_distribution (λ _, "") Cases.tagged_calls = Ok rs ∧
        ∀ t, t ∈ map tag rs
             ↔ ∃ ir, ir ∈ rows Cases.tagged_calls ∧ t ∈ row_tags (λ _, "") ir.2.
Proof.
  assert (H : calls_of Cases.tagged_calls ≠ 0) by (by vm_compute).
  split; [exact H|].
  exact (distribution_tags_complete (λ _, "") Cases.tagged_calls
           (proj1 tagged_calls_columns) (proj2 tagged_calls_columns) H).
Defined.

Lemma distribution_sorted_witness :
  ∃ rs, compute_call_distribution (λ _, "") Cases.tagged_calls = Ok rs ∧
        StronglySorted dist_le rs ∧ NoDup (map tag rs).
Proof.
  exact (distribution_sorted (λ _, "") Cases.tagged_calls
           (proj1 tagged_calls_columns) (proj2 tagged_calls_columns)).
Defined.

Lemma distribution_empty_without_call_witness :
  (COL_TAGS ∉ columns Cases.never_called) ∧
  compute_call_distribution (λ _, "") Cases.never_called = Ok [].
Proof.
  split; [apply (proj1 (bool_decide_eq_false _)); by vm_compute|].
  apply (distribution_empty_without_call (λ _, "") Cases.never_called).
  - apply (bool_decide_unpack _). by vm_compute.
  - by vm_compute.
Defined.

(** ** [compute_metrics] *)

Lemma count_rows_none p rs : (∀ r, p r = false) → count_rows p rs = 0.
Proof. intros Hp. apply count_rows_zero. intros x _. apply Hp. Qed.

Lemma field_absent cols r c : c ∉ cols → field cols r c = NaN.
Proof. intros Hc. unfold field. by rewrite decide_False. Qed.

Lemma opened_replied_apart cols r : opened cols r = true → replied cols r = true → False.
Proof.
  unfold opened, replied. intros H1 H2.
  apply eq_str_true in H1. apply eq_str_true in H2. rewrite H1 in H2. discriminate.
Qed.

Lemma count_rows_or p q rs :
  (∀ r, p r = true → q r = true → False) →
  count_rows (λ r, p r || q r) rs = count_rows p rs + count_rows q rs.
Proof.
  intros Hpq. induction rs as [|[i r] rs IH]; [done|].
  rewrite !count_rows_cons, IH. specialize (Hpq r).
  destruct (p r), (q r); simpl; try lia.
Qed.

(** X8: the opened and the replied rows are apart and both are mailed rows,
    and every meeting by e-mail is a replied row: opened + replied is at
    most contacts_email and rdv_email at most contacts_replied. *)
Theorem email_funnel (instant_repr : Z → string) (df : DataFrame) :
  ∃ m, compute_metrics instant_repr df = Ok m ∧
       contacts_opened m + contacts_replied m ≤ contacts_email m ∧
       rdv_email m ≤ contacts_replied m.
Proof.
  rewrite compute_metrics_rows. cbv zeta. eexists. split; [done|]. simpl. split.
  - rewrite <- count_rows_or by apply opened_replied_apart.
    apply count_rows_mono. intros r Hr. apply orb_true_iff in Hr.
    destruct Hr; [by apply opened_mailed|by apply replied_mailed].
  - apply count_rows_mono. intros r. apply rdv_by_email_replied.
Qed.

(** X9: a column that is missing gives zeros: without the timestamps no row
    is called and the four counts of the telephone are 0, without the tags
    the three counts that read them are 0, without the status the four
    counts of the e-mail are 0, and without the phase rdv_email is 0. *)
Theorem missing_column_zeros (instant_repr : Z → string) (df : DataFrame) :
  ∃ m, compute_metrics instant_repr df = Ok m ∧
       (COL_TS ∉ columns df →
        calls_total m = 0 ∧ calls_connected m = 0 ∧ calls_pitched m = 0 ∧ rdv_phone m = 0) ∧
       (COL_TAGS ∉ columns df →
        calls_connected m = 0 ∧ calls_pitched m = 0 ∧ rdv_phone m = 0) ∧
       (COL_STATUS ∉ columns df →
        contacts_email m = 0 ∧ contacts_opened m = 0 ∧ contacts_replied m = 0 ∧
        rdv_email m = 0) ∧
       (COL_PHASE ∉ columns df → rdv_email m = 0).
Proof.
  rewrite compute_metrics_rows. cbv zeta. eexists. split; [done|]. simpl.
  split; [|split; [|split]]; intros Hc.
  - assert (Hcalled : ∀ r, called (columns df) r = false).
    { intros r. unfold called. by rewrite field_absent. }
    repeat split; apply count_rows_none; intros r;
      unfold connected, pitched, rdv_by_phone; rewrite ?Hcalled;
      by rewrite ?andb_false_r.
  - assert (Htags : ∀ r, tags_of instant_repr (columns df) r = []).
    { intros r. unfold tags_of. by rewrite field_absent. }
    repeat split; apply count_rows_none; intros r;
      unfold connected, pitched, rdv_by_phone; by rewrite Htags.
  - repeat split; apply count_rows_none; intros r;
      unfold mailed, opened, replied, rdv_by_email, replied;
      rewrite (field_absent _ _ COL_STATUS) by done; simpl; by rewrite ?andb_false_r.
  - apply count_rows_none. intros r. unfold rdv_by_email.
    by rewrite field_absent.
Qed.

(** X10: the nine counts are additive: on the rows of two frames put one
    after the other, under the same columns, each count is the sum of the
    counts of the two. *)
Theorem counts_additive (instant_repr : Z → string) (cols : list string)
    (rs1 rs2 : list (Z * gmap string cell)) :
  ∃ m1 m2 m,
    compute_metrics instant_repr (mkDF cols rs1) = Ok m1 ∧
    compute_metrics instant_repr (mkDF cols rs2) = Ok m2 ∧
    compute_metrics instant_repr (mkDF cols (rs1 ++ rs2)) = Ok m ∧
    counts m = zip_with Z.add (counts m1) (counts m2).
Proof.
  rewrite !compute_metrics_rows. cbv zeta. do 3 eexists.
  do 3 (split; [done|]). unfold counts. simpl.
  rewrite !count_rows_app. do 8 f_equal. f_equal. lia.
Qed.

Lemma kpi_cells_field cols r cols' r' c :
  kpi_cells cols r = kpi_cells cols' r' →
  c ∈ [COL_TS; COL_TAGS; COL_STATUS; COL_PHASE] →
  field cols r c = field cols' r' c.
Proof.
  unfold kpi_cells. simpl. intros Heq Hc. injection Heq as H1 H2 H3 H4.
  repeat (apply elem_of_cons in Hc; destruct Hc as [->|Hc]; [done|]).
  by apply elem_of_nil in Hc.
Qed.

Ltac kpi_field H c :=
  rewrite (kpi_cells_field _ _ _ _ c H)
    by (apply (bool_decide_unpack _); by vm_compute).

Lemma called_reads : reads_kpi_cells called.
Proof. intros cols r cols' r' H. unfold called. by kpi_field H COL_TS. Qed.

Lemma tags_of_reads repr cols r cols' r' :
  kpi_cells cols r = kpi_cells cols' r' → tags_of repr cols r = tags_of repr cols' r'.
Proof. intros H. unfold tags_of. by kpi_field H COL_TAGS. Qed.

Lemma connected_reads repr : reads_kpi_cells (connected repr).
Proof.
  intros cols r cols' r' H. unfold connected.
  by rewrite (tags_of_reads _ _ _ _ _ H), (called_reads _ _ _ _ H).
Qed.

Lemma pitched_reads repr : reads_kpi_cells (pitched repr).
Proof.
  intros cols r cols' r' H. unfold pitched.
  by rewrite (tags_of_reads _ _ _ _ _ H), (called_reads _ _ _ _ H).
Qed.

Lemma rdv_by_phone_reads repr : reads_kpi_cells (rdv_by_phone repr).
Proof.
  intros cols r cols' r' H. unfold rdv_by_phone.
  by rewrite (tags_of_reads _ _ _ _ _ H), (called_reads _ _ _ _ H).
Qed.

Lemma mailed_reads : reads_kpi_cells mailed.
Proof. intros cols r cols' r' H. unfold mailed. by kpi_field H COL_STATUS. Qed.

Lemma opened_reads : reads_kpi_cells opened.
Proof. intros cols r cols' r' H. unfold opened. by kpi_field H COL_STATUS. Qed.

Lemma replied_reads : reads_kpi_cells replied.
Proof. intros cols r cols' r' H. unfold replied. by kpi_field H COL_STATUS. Qed.

Lemma rdv_by_email_reads repr : reads_kpi_cells (rdv_by_email repr).
Proof.
  intros cols r cols' r' H. unfold rdv_by_email.
  rewrite (replied_reads _ _ _ _ H), (rdv_by_phone_reads repr _ _ _ _ H).
  by kpi_field H COL_PHASE.
Qed.

Lemma filter_length_pointwise {A B C} (f : A → C) (g : B → C) (p : A → bool) (q : B → bool)
    (l : list A) (l' : list B) :
  (∀ x y, f x = g y → p x = q y) → map f l = map g l' →
  length (List.filter p l) = length (List.filter q l').
Proof.
  intros Hpq. revert l'. induction l as [|x l IH]; intros [|y l'] Heq; try done.
  simpl in Heq. injection Heq as Hxy Heq. simpl.
  rewrite (Hpq x y Hxy). destruct (q y); simpl; by rewrite (IH l').
Qed.

Lemma filter_length_Permutation {A} (p : A → bool) (l l' : list A) :
  l ≡ₚ l' → length (List.filter p l) = length (List.filter p l').
Proof.
  induction 1 as [|x l l' _ IH|x y l|l1 l2 l3 _ IH1 _ IH2]; simpl.
  - done.
  - destruct (p x); simpl; by rewrite IH.
  - by destruct (p x), (p y).
  - by rewrite IH1.
Qed.

Lemma count_rows_view (p : list string → gmap string cell → bool) df df' :
  reads_kpi_cells p → kpi_view df ≡ₚ kpi_view df' →
  count_rows (p (columns df)) (rows df) = count_rows (p (columns df')) (rows df').
Proof.
  intros Hp Hperm. unfold kpi_view in Hperm.
  apply Permutation_map_inv in Hperm. destruct Hperm as (rs & Heq & Hperm).
  unfold count_rows. f_equal.
  rewrite (filter_length_Permutation _ _ _ Hperm).
  apply (filter_length_pointwise (λ ir, kpi_cells (columns df) ir.2)
           (λ ir, kpi_cells (columns df') ir.2)); [|done].
  intros x y Hxy. by apply Hp.
Qed.

(** X11: the result depends on the four cells of the rows only, a missing
    column read as NaN, and not on their order: two frames whose rows hold
    the same four cells, in any order, under any labels and beside any other
    columns, have the same metrics. *)
Theorem metrics_read_four_cells (instant_repr : Z → string) (df df' : DataFrame) :
  kpi_view df ≡ₚ kpi_view df' →
  compute_metrics instant_repr df = compute_metrics instant_repr df'.
Proof.
  intros Hperm. rewrite !compute_metrics_rows. cbv zeta.
  pose proof (λ p Hp, count_rows_view p df df' Hp Hperm) as Hn.
  rewrite (Hn called called_reads).
  rewrite (Hn _ (connected_reads instant_repr)).
  rewrite (Hn _ (pitched_reads instant_repr)).
  rewrite (Hn _ (rdv_by_phone_reads instant_repr)).
  rewrite (Hn mailed mailed_reads), (Hn opened opened_reads), (Hn replied replied_reads).
  rewrite (Hn _ (rdv_by_email_reads instant_repr)).
  assert (Hboth : reads_kpi_cells (λ cols r, rdv_by_email instant_repr cols r
                                              && called cols r)).
  { intros cols r cols' r' H.
    by rewrite (rdv_by_email_reads instant_repr _ _ _ _ H), (called_reads _ _ _ _ H). }
  by rewrite (Hn _ Hboth).
Qed.

Lemma metrics_read_four_cells_witness :
  compute_metrics (λ _, "") Cases.tagged_calls
  = compute_metrics (λ _, "") Cases.tagged_calls_shuffled.
Proof.
  apply metrics_read_four_cells. vm_compute. apply perm_swap.
Defined.

(** ** [compute_call_distribution] and the order of the rows *)

Lemma count_rows_cells_Permutation p rs rs' :
  rs.*2 ≡ₚ rs'.*2 → count_rows p rs = count_rows p rs'.
Proof.
  intros Hperm. change (rs'.*2) with (map snd rs') in Hperm.
  apply Permutation_map_inv in Hperm. destruct Hperm as (l & Heq & Hperm).
  unfold count_rows. f_equal.
  rewrite (filter_length_Permutation _ _ _ Hperm).
  by apply (filter_length_pointwise snd snd); [intros [i r] [j r'] [= ->]|].
Qed.

Lemma tag_counts_Permutation tl tl' :
  tl ≡ₚ tl' → foldl count_tags ∅ tl = foldl count_tags ∅ tl'.
Proof.
  intros Hperm. apply map_eq. intros t. apply option_eq. intros n.
  rewrite !tag_counts_lookup. by rewrite (holders_Permutation t _ _ Hperm).
Qed.

Lemma tag_lists_Permutation instant_repr df df' :
  (rows df).*2 ≡ₚ (rows df').*2 → tag_lists instant_repr df ≡ₚ tag_lists instant_repr df'.
Proof.
  intros Hperm. unfold tag_lists.
  assert (∀ rs : list (Z * gmap string cell),
            map (λ ir, row_tags instant_repr ir.2) rs = row_tags instant_repr <$> rs.*2)
    as Hmap.
  { intros rs. induction rs as [|[i r] rs IH]; csimpl; [done|]. by rewrite IH. }
  rewrite !Hmap. by apply fmap_Permutation.
Qed.

Lemma df_empty_Permutation df df' :
  columns df ≡ₚ columns df' → (rows df).*2 ≡ₚ (rows df').*2 →
  df_empty df = df_empty df'.
Proof.
  intros Hc Hr. apply Permutation_length in Hc. apply Permutation_length in Hr.
  rewrite !length_fmap in Hr. unfold df_empty.
  destruct (rows df), (rows df'), (columns df), (columns df'); done.
Qed.

(** X12: the table does not depend on the order of the rows, on their
    labels or on the order of the columns: two frames with the same columns
    and the same rows, in any order, give the same table or raise the same
    error. *)
Theorem distribution_order_free (instant_repr : Z → string) (df df' : DataFrame) :
  columns df ≡ₚ columns df' → (rows df).*2 ≡ₚ (rows df').*2 →
  compute_call_distribution instant_repr df = compute_call_distribution instant_repr df'.
Proof.
  intros Hc Hr.
  assert (Hin : ∀ c, c ∈ columns df ↔ c ∈ columns df') by (intros c; by rewrite Hc).
  pose proof (df_empty_Permutation df df' Hc Hr) as He.
  assert (Hcalls : calls_of df = calls_of df') by by apply count_rows_cells_Permutation.
  destruct (df_empty df) eqn:Hempty.
  { unfold compute_call_distribution. by rewrite <- He, Hempty. }
  destruct (decide (COL_TS ∈ columns df)) as [Hts|Hts].
  - destruct (decide (calls_of df = 0)) as [H0|H0].
    { rewrite !distribution_no_call; [done|by apply Hin|by rewrite <- Hcalls|done|done]. }
    destruct (decide (COL_TAGS ∈ columns df)) as [Htg|Htg].
    + rewrite !distribution_eq; [|by apply Hin|by apply Hin|by rewrite <- Hcalls|done..].
      rewrite Hcalls.
      by rewrite (tag_counts_Permutation _ _ (tag_lists_Permutation instant_repr df df' Hr)).
    + rewrite !distribution_needs_tags; [done| | | | |done..].
      * by rewrite <- He.
      * by apply Hin.
      * by rewrite <- Hin.
      * fold (calls_of df'). by rewrite <- Hcalls.
  - rewrite !distribution_needs_timestamps; [done| | |done..].
    + by rewrite <- He.
    + by rewrite <- Hin.
Qed.

Lemma distribution_order_free_witness :
  compute_call_distribution (λ _, "") Cases.tagged_calls
  = compute_call_distribution (λ _, "") Cases.tagged_calls_reversed.
Proof.
  apply distribution_order_free.
  - change ([COL_TS; COL_TAGS] ≡ₚ [COL_TAGS; COL_TS]). apply perm_swap.
  - change ([Cases.call_two_tags; Cases.tag_no_call; Cases.call_no_tag]
            ≡ₚ [Cases.tag_no_call; Cases.call_no_tag; Cases.call_two_tags]).
    etrans; [apply perm_swap|]. apply perm_skip, perm_swap.
Defined.

(** ** [apply_filters]: the rows it returns *)

Lemma select_sublist d keep : rows (select d keep) `sublist_of` rows d.
Proof.
  unfold select. simpl. generalize (rows d). intros l. revert keep.
  induction l as [|x l IH]; intros [|b keep]; simpl; try apply sublist_nil_l.
  destruct b; simpl.
  - apply sublist_skip, IH.
  - apply sublist_cons, IH.
Qed.

Lemma getitem_bool_sublist d key d' :
  getitem_bool d key = Ok d' → columns d' = columns d ∧ rows d' `sublist_of` rows d.
Proof.
  unfold getitem_bool. destruct (decide _).
  - intros [= <-]. split; [done|apply select_sublist].
  - destruct (mapM _ _); [|discriminate]. intros [= <-].
    split; [done|apply select_sublist].
Qed.

Lemma date_filter_sublist d cmp d' :
  date_filter d cmp = Ok d' → columns d' = columns d ∧ rows d' `sublist_of` rows d.
Proof.
  unfold date_filter. destruct (date_mask d COL_TS cmp); [|discriminate]. simpl.
  destruct (date_mask d COL_ACTIVITY cmp); [|discriminate]. simpl.
  apply getitem_bool_sublist.
Qed.

Lemma date_step_sublist cmp o d d' :
  date_step cmp o d = Ok d' → columns d' = columns d ∧ rows d' `sublist_of` rows d.
Proof.
  destruct o; simpl; [apply date_filter_sublist|]. by intros [= <-].
Qed.

Lemma filter_if_possible_sublist d col vals d' :
  filter_if_possible d col vals = Ok d' →
  columns d' = columns d ∧ rows d' `sublist_of` rows d.
Proof.
  unfold filter_if_possible. destruct vals as [[|v vs]|]; try by intros [= <-].
  destruct (decide _); [|by intros [= <-]].
  destruct (getitem d col); [|discriminate]. simpl. apply getitem_bool_sublist.
Qed.

Lemma apply_filters_sublist read_dates aware df crit d :
  apply_filters read_dates aware df crit = Ok d →
  ∃ d0, parse_dates read_dates df = Ok d0 ∧
        columns d = columns d0 ∧ rows d `sublist_of` rows d0.
Proof.
  rewrite apply_filters_steps. intros H.
  destruct (parse_dates read_dates df) as [d0|] eqn:H0; [|discriminate]. simpl in H.
  destruct (date_step (ge_instant aware) _ _) as [d1|] eqn:H1; [|discriminate].
  simpl in H.
  destruct (date_step (le_instant aware) _ _) as [d2|] eqn:H2; [|discriminate].
  simpl in H.
  destruct (filter_if_possible d2 _ _) as [d3|] eqn:H3; [|discriminate]. simpl in H.
  destruct (filter_if_possible d3 _ _) as [d4|] eqn:H4; [|discriminate]. simpl in H.
  destruct (filter_if_possible d4 _ _) as [d5|] eqn:H5; [|discriminate]. simpl in H.
  destruct (filter_if_possible d5 _ _) as [d6|] eqn:H6; [|discriminate]. simpl in H.
  apply date_step_sublist in H1 as [C1 S1]. apply date_step_sublist in H2 as [C2 S2].
  apply filter_if_possible_sublist in H3 as [C3 S3].
  apply filter_if_possible_sublist in H4 as [C4 S4].
  apply filter_if_possible_sublist in H5 as [C5 S5].
  apply filter_if_possible_sublist in H6 as [C6 S6].
  apply filter_if_possible_sublist in H as [C7 S7].
  exists d0. split; [done|]. split; [congruence|].
  repeat (etrans; [eassumption|]). done.
Qed.

(** X13: whatever the criteria, a frame that [apply_filters] returns has the
    columns of the input, and its rows are rows of the input after the
    parsing of the two date columns, in their order and each at most once:
    no row is added, repeated or moved, and no cell outside the two date
    columns is changed. *)
Theorem filters_select_rows (read_dates : list cell → result (list (option Z)))
    (aware : Z → bool) (df : DataFrame) (crit : Criteria) (d : DataFrame) :
  apply_filters read_dates aware df crit = Ok d →
  ∃ d0, parse_dates read_dates df = Ok d0 ∧
        frame_read df d0 ∧
        columns d = columns df ∧
        rows d `sublist_of` rows d0 ∧
        (df_len d ≤ df_len df)%nat.
Proof.
  intros H. apply apply_filters_sublist in H as (d0 & H0 & Hc & Hs).
  pose proof (parse_dates_read _ _ _ H0) as Hread.
  exists d0. split; [done|]. split; [done|].
  split; [destruct Hread as [<- _]; done|]. split; [done|].
  rewrite <- (frame_read_length _ _ Hread). by apply sublist_length.
Qed.

Lemma filters_select_rows_witness :
  ∃ d0, parse_dates Sample.read_iso Sample.two_rows_by_campaign = Ok d0 ∧
        rows (mkDF [COL_CAMPAIGN; COL_TS; COL_ACTIVITY]
                   [(1, {[ COL_CAMPAIGN := Str "B"; COL_TS := Ts 20240301;
                           COL_ACTIVITY := NaT ]})])
        `sublist_of` rows d0.
Proof.
  destruct (filters_select_rows Sample.read_iso Sample.no_zone
              Sample.two_rows_by_campaign (only_dim Campaign (Some ["B"]))
              (mkDF [COL_CAMPAIGN; COL_TS; COL_ACTIVITY]
                    [(1, {[ COL_CAMPAIGN := Str "B"; COL_TS := Ts 20240301;
                            COL_ACTIVITY := NaT ]})]))
    as (d0 & H0 & _ & _ & Hs & _).
  - by vm_compute.
  - by exists d0.
Defined.

(** ** The filtering step before the metrics, as [main] chains them *)

Lemma field_row_read_other cols r r0 c :
  row_read cols r r0 → c ≠ COL_TS → c ≠ COL_ACTIVITY →
  field cols r0 c = field cols r c.
Proof.
  intros H H1 H2. unfold field. destruct (decide (c ∈ cols)); [|done].
  apply (row_read_other cols). { done. } by intros [[?|?] _].
Qed.

Lemma called_row_read cols r r0 :
  row_read cols r r0 → called cols r0 = true → called cols r = true.
Proof.
  intros H. unfold called, field. destruct (decide (COL_TS ∈ cols)) as [Hc|]; [|done].
  destruct (row_read_date cols r r0 COL_TS H) as (v & Hv & _ & Hna);
    [apply elem_of_cons; by left|done|].
  unfold cell_at at 1. by rewrite Hv.
Qed.

Lemma tags_of_row_read repr cols r r0 :
  row_read cols r r0 → tags_of repr cols r0 = tags_of repr cols r.
Proof.
  intros H. unfold tags_of. by rewrite (field_row_read_other cols r r0)
    by (done || apply (proj1 (bool_decide_eq_false _)); by vm_compute).
Qed.

Lemma status_row_read cols r r0 :
  row_read cols r r0 → field cols r0 COL_STATUS = field cols r COL_STATUS.
Proof.
  intros H. by rewrite (field_row_read_other cols r r0)
    by (done || apply (proj1 (bool_decide_eq_false _)); by vm_compute).
Qed.

Lemma count_rows_sublist p rs rs' :
  rs' `sublist_of` rs → count_rows p rs' ≤ count_rows p rs.
Proof.
  induction 1 as [|[i r] l1 l2 _ IH|[i r] l1 l2 _ IH]; [done|..];
    rewrite !count_rows_cons.
  - lia.
  - destruct (p r); lia.
Qed.

Lemma count_rows_read cols (p : gmap string cell → bool) rs rs0 :
  (∀ r r0, row_read cols r r0 → p r0 = true → p r = true) →
  Forall2 (λ ir ir0 : Z * gmap string cell, ir0.1 = ir.1 ∧ row_read cols ir.2 ir0.2)
          rs rs0 →
  count_rows p rs0 ≤ count_rows p rs.
Proof.
  intros Hp. induction 1 as [|[i r] [i0 r0] rs rs0 [_ Hr] _ IH]; [done|].
  rewrite !count_rows_cons. simpl in Hr. specialize (Hp r r0 Hr).
  destruct (p r0); [rewrite Hp by done; lia|]. destruct (p r); lia.
Qed.

Lemma count_rows_filtered read_dates aware
    (p : list string → gmap string cell → bool) df crit d :
  (∀ cols r r0, row_read cols r r0 → p cols r0 = true → p cols r = true) →
  apply_filters read_dates aware df crit = Ok d →
  count_rows (p (columns d)) (rows d) ≤ count_rows (p (columns df)) (rows df).
Proof.
  intros Hp H. apply apply_filters_sublist in H as (d0 & H0 & Hc & Hs).
  apply parse_dates_read in H0 as [Hc0 Hrows]. rewrite Hc, Hc0.
  etrans; [by apply count_rows_sublist|].
  by apply (count_rows_read (columns df)); [apply Hp|].
Qed.

(** X14: filtering never raises the seven counts of the calls and of the
    e-mails: on a frame that [apply_filters] returns, calls_total,
    calls_connected, calls_pitched, rdv_phone, contacts_email,
    contacts_opened and contacts_replied are at most what they are on the
    input. *)
Theorem filtered_counts_below (read_dates : list cell → result (list (option Z)))
    (aware : Z → bool) (instant_repr : Z → string) (df : DataFrame) (crit : Criteria)
    (d : DataFrame) :
  apply_filters read_dates aware df crit = Ok d →
  ∃ m m', compute_metrics instant_repr df = Ok m ∧
          compute_metrics instant_repr d = Ok m' ∧
          calls_total m' ≤ calls_total m ∧
          calls_connected m' ≤ calls_connected m ∧
          calls_pitched m' ≤ calls_pitched m ∧
          rdv_phone m' ≤ rdv_phone m ∧
          contacts_email m' ≤ contacts_email m ∧
          contacts_opened m' ≤ contacts_opened m ∧
          contacts_replied m' ≤ contacts_replied m.
Proof.
  intros H. rewrite !compute_metrics_rows. cbv zeta. do 2 eexists.
  do 2 (split; [done|]). simpl.
  pose proof (λ p Hp, count_rows_filtered read_dates aware p df crit d Hp H) as Hn.
  repeat split.
  - apply (Hn called). intros cols r r0. apply called_row_read.
  - apply (Hn (connected instant_repr)). intros cols r r0 Hr. unfold connected.
    rewrite (tags_of_row_read _ _ _ _ Hr), !andb_true_iff. intros [? ?].
    split; [done|by eapply called_row_read].
  - apply (Hn (pitched instant_repr)). intros cols r r0 Hr. unfold pitched.
    rewrite (tags_of_row_read _ _ _ _ Hr), !andb_true_iff. intros [? ?].
    split; [done|by eapply called_row_read].
  - apply (Hn (rdv_by_phone instant_repr)). intros cols r r0 Hr. unfold rdv_by_phone.
    rewrite (tags_of_row_read _ _ _ _ Hr), !andb_true_iff. intros [? ?].
    split; [done|by eapply called_row_read].
  - apply (Hn mailed). intros cols r r0 Hr. unfold mailed.
    by rewrite (status_row_read _ _ _ Hr).
  - apply (Hn opened). intros cols r r0 Hr. unfold opened.
    by rewrite (status_row_read _ _ _ Hr).
  - apply (Hn replied). intros cols r r0 Hr. unfold replied.
    by rewrite (status_row_read _ _ _ Hr).
Qed.

Lemma filtered_counts_below_witness :
  ∃ m m', compute_metrics (λ _, "") Sample.raw_timestamps = Ok m ∧
          compute_metrics (λ _, "")
            (mkDF [COL_TS] [(0, {[ COL_TS := Ts 20240105 ]}); (1, {[ COL_TS := NaT ]})])
          = Ok m' ∧
          calls_total m' ≤ calls_total m.
Proof.
  destruct (filtered_counts_below Sample.read_iso Sample.no_zone (λ _, "")
              Sample.raw_timestamps no_criteria
              (mkDF [COL_TS] [(0, {[ COL_TS := Ts 20240105 ]}); (1, {[ COL_TS := NaT ]})]))
    as (m & m' & Hm & Hm' & Hle & _).
  - by vm_compute.
  - exists m, m'. by repeat split.
Defined.

Lemma called_parsed cols r :
  (COL_TS ∈ cols → ∃ v, r !! COL_TS = Some v ∧ is_stamp v = true) →
  called cols r = bool_decide (is_Some (instant_in cols r COL_TS)).
Proof.
  intros Hp. unfold called, field, instant_in.
  destruct (decide (COL_TS ∈ cols)) as [Hc|Hc]; [|done].
  destruct (Hp Hc) as (v & Hv & Hs). unfold cell_at. rewrite Hv. simpl.
  by destruct v.
Qed.

(** X15: with no criterion [apply_filters] is the parsing of the two date
    columns and nothing else: it raises what the parsing raises or returns
    the parsed frame, on which calls_total counts the rows whose timestamp
    has been read as an instant; it is at most calls_total of the input. *)
Theorem calls_total_after_filtering (read_dates : list cell → result (list (option Z)))
    (aware : Z → bool) (instant_repr : Z → string) (df : DataFrame) :
  apply_filters read_dates aware df no_criteria = parse_dates read_dates df ∧
  ∀ d, parse_dates read_dates df = Ok d →
       ∃ m m', compute_metrics instant_repr df = Ok m ∧
               compute_metrics instant_repr d = Ok m' ∧
               calls_total m'
               = count_rows (λ r, bool_decide (is_Some (instant_in (columns d) r COL_TS)))
                            (rows d) ∧
               calls_total m' ≤ calls_total m.
Proof.
  split; [apply apply_no_criteria|]. intros d Hd.
  rewrite !compute_metrics_rows. cbv zeta. do 2 eexists.
  do 2 (split; [done|]). simpl. split.
  - pose proof (parse_dates_is_parsed _ _ _ Hd) as Hp.
    unfold count_rows. f_equal. f_equal. apply filter_ext_in. intros [i r] Hin.
    simpl. apply called_parsed. intros Hc. apply (Hp i r COL_TS); [|by left|done].
    by apply list_elem_of_In.
  - apply parse_dates_read in Hd as [Hc Hrows]. rewrite Hc.
    apply (count_rows_read (columns df)); [|done].
    intros r r0. apply called_row_read.
Qed.

(** ** [apply_filters]: twice, and with a period *)

(** X16: with both date columns in the frame, or without a date bound,
    filtering again the frame that [apply_filters] returns, with the same
    criteria, returns that frame. *)
Theorem filtering_twice (read_dates : list cell → result (list (option Z)))
    (aware : Z → bool) (df : DataFrame) (crit : Criteria) (d : DataFrame) :
  (COL_TS ∈ columns df ∧ COL_ACTIVITY ∈ columns df)
  ∨ (start_date crit = None ∧ end_date crit = None) →
  apply_filters read_dates aware df crit = Ok d →
  apply_filters read_dates aware d crit = Ok d.
Proof. apply apply_filters_idempotent_aligned. Qed.

Lemma filtering_twice_witness :
  let crit := mkCriteria (Some ["B"]) None None None None (Some 20240201) None in
  let once := mkDF [COL_CAMPAIGN; COL_TS; COL_ACTIVITY]
                   [(1, {[ COL_CAMPAIGN := Str "B"; COL_TS := Ts 20240301;
                           COL_ACTIVITY := NaT ]})] in
  apply_filters Sample.read_iso Sample.no_zone Sample.two_rows_by_campaign crit = Ok once ∧
  apply_filters Sample.read_iso Sample.no_zone once crit = Ok once.
Proof.
  intros crit once.
  assert (H : apply_filters Sample.read_iso Sample.no_zone Sample.two_rows_by_campaign crit
              = Ok once) by (by vm_compute).
  split; [exact H|].
  apply (filtering_twice Sample.read_iso Sample.no_zone Sample.two_rows_by_campaign);
    [|exact H].
  left. split; apply (bool_decide_unpack _); by vm_compute.
Defined.

Lemma fallback_rows_nonempty p rs : rs ≠ [] → fallback_rows p rs ≠ [].
Proof.
  intros Hne. unfold fallback_rows. destruct (decide _) as [H0|H0]; [done|].
  intros Hnil. apply H0. unfold count_rows, filter_rows in *. by rewrite Hnil.
Qed.

Lemma date_step_keeps_rows aware cmp holds o d d' :
  (∀ b, cmp b = compare_instants aware (holds b)) →
  COL_TS ∈ columns d → COL_ACTIVITY ∈ columns d → rows d ≠ [] →
  date_step cmp o d = Ok d' → columns d' = columns d ∧ rows d' ≠ [].
Proof.
  intros Hcmp Hts Hact Hne. destruct o as [bound|]; simpl; [|by intros [= <-]].
  rewrite Hcmp. intros H. pose proof (date_filter_naive _ _ _ _ H) as Hn.
  rewrite date_filter_aligned in H by (done || by left). injection H as <-.
  split; [done|]. simpl. by apply fallback_rows_nonempty.
Qed.

(** X17: with both date columns in the frame, a period alone never empties
    it: each of its two bounds keeps every row when no row has an instant on
    its side of the bound, so the frame that [apply_filters] returns for a
    frame with rows has rows. *)
Theorem period_keeps_rows (read_dates : list cell → result (list (option Z)))
    (aware : Z → bool) (df : DataFrame) (start stop : option Z) (d : DataFrame) :
  COL_TS ∈ columns df → COL_ACTIVITY ∈ columns df → rows df ≠ [] →
  apply_filters read_dates aware df (only_period start stop) = Ok d →
  rows d ≠ [].
Proof.
  intros Hts Hact Hne. rewrite apply_filters_steps.
  destruct (parse_dates read_dates df) as [d0|] eqn:H0; [|discriminate]. simpl.
  pose proof (parse_dates_read _ _ _ H0) as Hread.
  assert (Hne0 : rows d0 ≠ []).
  { pose proof (frame_read_length _ _ Hread) as Hlen. unfold df_len in Hlen.
    destruct (rows d0), (rows df); done. }
  destruct Hread as [Hc0 _].
  destruct (date_step (ge_instant aware) start d0) as [d1|] eqn:H1; [|discriminate].
  simpl.
  apply (date_step_keeps_rows aware _ (λ b t, bool_decide (b ≤ t))) in H1
    as [Hc1 Hne1]; [|done|by rewrite Hc0..|done].
  destruct (date_step (le_instant aware) stop d1) as [d2|] eqn:H2; [|discriminate].
  simpl.
  apply (date_step_keeps_rows aware _ (λ b t, bool_decide (t ≤ b))) in H2
    as [Hc2 Hne2]; [|done|by rewrite Hc1, Hc0..|done].
  by intros [= <-].
Qed.

Lemma period_keeps_rows_witness :
  rows (mkDF [COL_TS; COL_ACTIVITY]
             [(0, {[ COL_TS := Ts 20240105; COL_ACTIVITY := NaT ]})]) ≠ [].
Proof.
  apply (period_keeps_rows Sample.read_iso Sample.no_zone Sample.one_early_call
           (Some 20240201) (Some 20240301)).
  - apply (bool_decide_unpack _). by vm_compute.
  - apply (bool_decide_unpack _). by vm_compute.
  - discriminate.
  - by vm_compute.
Defined.

(** ** [apply_filters]: the categorical filters *)

Lemma filter_if_possible_drop_empty d col v :
  filter_if_possible d col (drop_empty v) = filter_if_possible d col v.
Proof. by destruct v as [[|]|]. Qed.

(** X18: an empty list of allowed values filters nothing, as no list at all:
    replacing every empty list of the criteria by no list leaves the result
    as it is. *)
Theorem empty_selection_is_no_filter (read_dates : list cell → result (list (option Z)))
    (aware : Z → bool) (df : DataFrame) (crit : Criteria) :
  apply_filters read_dates aware df (without_empty_lists crit)
  = apply_filters read_dates aware df crit.
Proof.
  rewrite !apply_filters_steps. simpl.
  destruct (parse_dates read_dates df) as [d0|]; [|done]. simpl.
  destruct (date_step (ge_instant aware) _ _) as [d1|]; [|done]. simpl.
  destruct (date_step (le_instant aware) _ _) as [d2|]; [|done]. simpl.
  rewrite filter_if_possible_drop_empty.
  destruct (filter_if_possible d2 _ _) as [d3|]; [|done]. simpl.
  rewrite filter_if_possible_drop_empty.
  destruct (filter_if_possible d3 _ _) as [d4|]; [|done]. simpl.
  rewrite filter_if_possible_drop_empty.
  destruct (filter_if_possible d4 _ _) as [d5|]; [|done]. simpl.
  rewrite filter_if_possible_drop_empty.
  destruct (filter_if_possible d5 _ _) as [d6|]; [|done]. simpl.
  by rewrite filter_if_possible_drop_empty.
Qed.

Lemma dim_column_not_date dim : dim_column dim ≠ COL_TS ∧ dim_column dim ≠ COL_ACTIVITY.
Proof. destruct dim; split; apply (proj1 (bool_decide_eq_false _)); by vm_compute. Qed.

(** X19: a categorical filter on a column of the frame, with a list of
    allowed values that is not empty, raises what the parsing of the date
    columns raises, and otherwise returns the rows of the parsed frame whose
    value in the column is one of the allowed texts, a missing value being
    read as the empty text and a number matching no text; the rows keep
    their order and their labels, and the parsing has left the column as it
    is in the input. *)
Theorem categorical_filter_rows (read_dates : list cell → result (list (option Z)))
    (aware : Z → bool) (df : DataFrame) (dim : dimension) (vals : list string) :
  vals ≠ [] → dim_column dim ∈ columns df →
  apply_filters read_dates aware df (only_dim dim (Some vals))
  = (parse_dates read_dates df ≫= λ d0,
     Ok (mkDF (columns d0)
              (filter_rows (λ r, isin vals (fillna "" (cell_at r (dim_column dim))))
                           (rows d0)))) ∧
  ∀ d0, parse_dates read_dates df = Ok d0 →
        Forall2 (λ ir ir0, ir0.1 = ir.1 ∧
                           cell_at ir0.2 (dim_column dim) = cell_at ir.2 (dim_column dim))
                (rows df) (rows d0).
Proof.
  intros Hne Hcol. split.
  - rewrite apply_only_dim.
    destruct (parse_dates read_dates df) as [d0|] eqn:H0; [|done].
    change (filter_if_possible d0 (dim_column dim) (Some vals) = Ok (mkDF (columns d0)
              (filter_rows (cat_row (dim_column dim) vals) (rows d0)))).
    rewrite filter_if_possible_rows. destruct vals as [|v vs]; [done|].
    rewrite decide_True; [done|]. by apply parse_dates_read in H0 as [-> _].
  - intros d0 H0. apply parse_dates_read in H0 as [_ Hrows].
    eapply Forall2_impl; [exact Hrows|]. intros [i r] [i0 r0] [Hi Hr]. simpl in *.
    split; [done|]. apply (row_read_other (columns df)); [done|].
    destruct (dim_column_not_date dim). by intros [[?|?] _].
Qed.

Lemma categorical_filter_rows_witness :
  apply_filters Sample.read_iso Sample.no_zone Sample.two_rows_by_campaign
                (only_dim Campaign (Some ["B"]))
  = (parse_dates Sample.read_iso Sample.two_rows_by_campaign ≫= λ d0,
     Ok (mkDF (columns d0)
              (filter_rows (λ r, isin ["B"] (fillna "" (cell_at r (dim_column Campaign))))
                           (rows d0)))).
Proof.
  apply (categorical_filter_rows Sample.read_iso Sample.no_zone
           Sample.two_rows_by_campaign Campaign ["B"]); [discriminate|].
  apply (bool_decide_unpack _). by vm_compute.
Defined.

Lemma filter_rows_comm p q rs :
  filter_rows p (filter_rows q rs) = filter_rows q (filter_rows p rs).
Proof.
  unfold filter_rows. induction rs as [|[i r] rs IH]; [done|]. simpl.
  destruct (q r) eqn:Hq, (p r) eqn:Hp; simpl; rewrite ?Hq, ?Hp, IH; done.
Qed.

(** What one categorical step keeps of a frame. *)
Lemma filter_if_possible_keep d col vals :
  ∃ p, (∀ d', columns d' = columns d →
              filter_if_possible d' col vals
              = Ok (mkDF (columns d') (filter_rows p (rows d')))).
Proof.
  destruct vals as [[|v vs]|].
  - exists (λ _, true). intros d' _. simpl.
    rewrite filter_rows_all by done. by rewrite mkDF_eta.
  - destruct (decide (col ∈ columns d)) as [Hc|Hc].
    + exists (cat_row col (v :: vs)). intros d' Hd'.
      rewrite filter_if_possible_rows. by rewrite decide_True by by rewrite Hd'.
    + exists (λ _, true). intros d' Hd'.
      rewrite filter_if_possible_rows. rewrite decide_False by by rewrite Hd'.
      rewrite filter_rows_all by done. by rewrite mkDF_eta.
  - exists (λ _, true). intros d' _. simpl.
    rewrite filter_rows_all by done. by rewrite mkDF_eta.
Qed.

Lemma parsed_filter_rows d p :
  parsed d → parsed (mkDF (columns d) (filter_rows p (rows d))).
Proof.
  intros Hp. apply (parsed_sub_frame _ d); [|done].
  split; [done|]. simpl. intros x Hx. by apply filter_rows_elem in Hx as [? _].
Qed.

(** X20: two categorical filters commute: filtering by one dimension and
    then the result by another gives what the other order gives. *)
Theorem categorical_filters_commute (read_dates : list cell → result (list (option Z)))
    (aware : Z → bool) (df : DataFrame) (a b : dimension) (va vb : option (list string)) :
  (apply_filters read_dates aware df (only_dim a va) ≫= λ d,
   apply_filters read_dates aware d (only_dim b vb))
  = (apply_filters read_dates aware df (only_dim b vb) ≫= λ d,
     apply_filters read_dates aware d (only_dim a va)).
Proof.
  rewrite !apply_only_dim.
  destruct (parse_dates read_dates df) as [d0|] eqn:H0; [|done].
  pose proof (parse_dates_is_parsed _ _ _ H0) as Hp.
  destruct (filter_if_possible_keep d0 (dim_column a) va) as [p Ha].
  destruct (filter_if_possible_keep d0 (dim_column b) vb) as [q Hb].
  change ((filter_if_possible d0 (dim_column a) va ≫= λ d,
           apply_filters read_dates aware d (only_dim b vb))
          = (filter_if_possible d0 (dim_column b) vb ≫= λ d,
             apply_filters read_dates aware d (only_dim a va))).
  rewrite (Ha d0), (Hb d0) by done. simpl.
  rewrite !apply_only_dim_parsed by by apply parsed_filter_rows.
  rewrite Ha, Hb by done. simpl. by rewrite filter_rows_comm.
Qed.

(** ** The telephone meetings in the metrics and in the table *)

Lemma field_present cols r c : c ∈ cols → field cols r c = cell_at r c.
Proof. intros Hc. unfold field. by rewrite decide_True. Qed.

Lemma has_rdv_tag tags :
  has_any_tag tags CALL_TAGS_RDV = bool_decide ("Meeting" ∈ tags).
Proof.
  apply eq_true_iff_eq. rewrite has_any_tag_elem, bool_decide_eq_true. split.
  - intros (t & Ht & HS). unfold CALL_TAGS_RDV in HS.
    apply elem_of_singleton in HS. by subst t.
  - intros Hin. exists "Meeting". split; [done|]. by apply elem_of_singleton.
Qed.

Lemma rdv_by_phone_columns repr cols r :
  rdv_by_phone repr cols r = true → COL_TS ∈ cols ∧ COL_TAGS ∈ cols.
Proof.
  unfold rdv_by_phone, called, tags_of. intros H. apply andb_true_iff in H as [Ht Hc].
  split.
  - destruct (decide (COL_TS ∈ cols)) as [|Hn]; [done|].
    by rewrite field_absent in Hc.
  - destruct (decide (COL_TAGS ∈ cols)) as [|Hn]; [done|].
    by rewrite field_absent in Ht.
Qed.

Lemma count_rows_pos p rs : 0 < count_rows p rs → ∃ x, x ∈ rs ∧ p x.2 = true.
Proof.
  induction rs as [|[i r] rs IH]; [by rewrite count_rows_nil|].
  rewrite count_rows_cons. destruct (p r) eqn:Hp.
  - intros _. exists (i, r). split; [apply elem_of_cons; by left|done].
  - intros H. destruct IH as (x & Hx & Hpx); [lia|].
    exists x. split; [apply elem_of_cons; by right|done].
Qed.

Lemma holders_count_rows repr df t :
  holders t (tag_lists repr df)
  = count_rows (λ r, bool_decide (t ∈ row_tags repr r)) (rows df).
Proof.
  unfold tag_lists. induction (rows df) as [|[i r] rs IH]; [done|].
  simpl. rewrite holders_cons, count_rows_cons, IH. simpl.
  by destruct (decide (t ∈ row_tags repr r)) as [H|H];
    [rewrite bool_decide_eq_true_2|rewrite bool_decide_eq_false_2].
Qed.

Lemma count_rows_split p q rs :
  count_rows p rs
  = count_rows (λ r, p r && q r) rs + count_rows (λ r, p r && negb (q r)) rs.
Proof.
  induction rs as [|[i r] rs IH]; [done|].
  rewrite !count_rows_cons, IH. destruct (p r), (q r); simpl; lia.
Qed.

(** X21: when rdv_phone is not 0 the table is returned and has a line for
    the tag Meeting, whose count is rdv_phone plus the number of rows that
    bear the tag without having been called: the line of the table counts
    the rows without a call, the metric does not. *)
Theorem meeting_line_and_rdv_phone (instant_repr : Z → string) (df : DataFrame) :
  ∃ m, compute_metrics instant_repr df = Ok m ∧
       (0 < rdv_phone m →
        ∃ rs d, compute_call_distribution instant_repr df = Ok rs ∧
                d ∈ rs ∧ tag d = "Meeting" ∧
                count d
                = rdv_phone m
                  + count_rows (λ r, bool_decide ("Meeting" ∈ row_tags instant_repr r)
                                     && negb (notna (cell_at r COL_TS)))
                               (rows df)).
Proof.
  rewrite compute_metrics_rows. cbv zeta. eexists. split; [done|]. simpl.
  intros Hpos.
  destruct (count_rows_pos _ _ Hpos) as (x & _ & Hx).
  apply rdv_by_phone_columns in Hx as [Hts Htg].
  assert (Hrdv : count_rows (rdv_by_phone instant_repr (columns df)) (rows df)
                 = count_rows (λ r, bool_decide ("Meeting" ∈ row_tags instant_repr r)
                                    && notna (cell_at r COL_TS)) (rows df)).
  { apply count_rows_ext. intros r. unfold rdv_by_phone, called, tags_of, row_tags.
    by rewrite has_rdv_tag, !field_present by done. }
  assert (Hcalls : calls_of df ≠ 0).
  { unfold calls_of. rewrite Hrdv in Hpos.
    pose proof (count_rows_mono
                  (λ r, bool_decide ("Meeting" ∈ row_tags instant_repr r)
                        && notna (cell_at r COL_TS))
                  (λ r, notna (cell_at r COL_TS)) (rows df)) as Hle.
    assert (∀ r, bool_decide ("Meeting" ∈ row_tags instant_repr r)
                 && notna (cell_at r COL_TS) = true → notna (cell_at r COL_TS) = true)
      as Himp by (intros r Hr; by apply andb_true_iff in Hr as [_ ?]).
    specialize (Hle Himp). lia. }
  rewrite distribution_eq by done.
  assert (Hcount : holders "Meeting" (tag_lists instant_repr df)
                   = count_rows (rdv_by_phone instant_repr (columns df)) (rows df)
                     + count_rows (λ r, bool_decide ("Meeting" ∈ row_tags instant_repr r)
                                        && negb (notna (cell_at r COL_TS))) (rows df)).
  { rewrite Hrdv, holders_count_rows.
    apply (count_rows_split _ (λ r, notna (cell_at r COL_TS))). }
  pose proof (count_rows_bounds
                (λ r, bool_decide ("Meeting" ∈ row_tags instant_repr r)
                      && negb (notna (cell_at r COL_TS))) (rows df)) as [Hge _].
  eexists. exists (dist_row (calls_of df)
                     ("Meeting", holders "Meeting" (tag_lists instant_repr df))).
  split; [done|]. split; [|split; [done|exact Hcount]].
  rewrite map_fmap. apply list_elem_of_fmap. eexists. split; [done|].
  apply sorted_items_elem. simpl. apply tag_counts_lookup. split; [done|]. lia.
Qed.
